(** * CollisionCloud-Frost: calibration, timeline and dashboard

    A shallow embedding of the accident-reconstruction front end
    (accident-frontend/src: lib/api.ts, components/CalibrationComponent.tsx,
    components/Timeline.tsx, app/dashboard/page.tsx) together with the
    analytical core the specification describes (session lifecycle, IoU,
    severity, collision phases), whose code is not part of the front end
    and is therefore modelled from the specification.

    Conventions.  A JavaScript [number] is an IEEE double; here frame
    indices and counters are [Z] and every other number is an exact
    rational [Q], so [a / b] below is the exact quotient the double
    approximates.  [undefined] and an absent optional field are [None].
    The value [NaN] that [parseFloat] may return is [None] as well. *)

From Stdlib Require Import List String Ascii ZArith QArith Qminmax Bool Lia Lqa.
From Stdlib Require Import DecimalString Sorted.
Import ListNotations.

Local Open Scope string_scope.
Local Open Scope Z_scope.
Local Open Scope Q_scope.

(* ================================================================== *)
(** ** JavaScript helpers *)
(* ================================================================== *)

Module JS.

(** Template-literal rendering of an integer: [`${n}`]. *)
Definition show (n : Z) : string := NilZero.string_of_int (Z.to_int n).

(** [x || 0] on a number that may be [undefined] or [NaN]: the falsy
    numbers are [0] and [NaN]. *)
Definition or_zero (x : option Q) : Q :=
  match x with
  | Some q => if Qeq_bool q 0 then 0 else q
  | None => 0
  end.

(** [xs.map((x, idx) => f(x, idx))]. *)
Fixpoint mapi_from {A B} (f : A -> nat -> B) (i : nat) (xs : list A) : list B :=
  match xs with
  | [] => []
  | x :: xs' => f x i :: mapi_from f (S i) xs'
  end.

Definition mapi {A B} (f : A -> nat -> B) (xs : list A) : list B :=
  mapi_from f 0 xs.

Definition is_defined {A} (x : option A) : bool :=
  match x with Some _ => true | None => false end.

End JS.

(* ================================================================== *)
(** ** lib/api.ts: the data the front end exchanges with the back end *)
(* ================================================================== *)

Module Project.
Record t := mk {
  id : string;
  user_id : string;
  title : string;
  description : option string;
  status : string;
  video_path : option string;
  created_at : string;
  updated_at : string
}.
End Project.

(** The element type of [HomographySession.pairs]. *)
Module SessionPair.
Record t := mk {
  id : string;
  image_x_norm : Q;
  image_y_norm : Q;
  map_lat : Q;
  map_lng : Q;
  order_idx : Z
}.
End SessionPair.

Module HomographySession.
Record t := mk {
  id : string;
  project_id : string;
  status : string;
  created_at : string;
  solved_at : option string;
  pairs : list SessionPair.t;
  matrix : option (list (list Q));
  reprojection_error : option Q
}.
End HomographySession.

Module SolveResponse.
Record t := mk {
  success : bool;
  matrix : option (list (list Q));
  reprojection_error : option Q;
  error_message : option string
}.
End SolveResponse.

(** The session invariant of the specification, as a decidable test:
  the matrix is present exactly when the status is ["solved"]. *)
Definition matrix_iff_solved (s : HomographySession.t) : bool :=
Bool.eqb (JS.is_defined (HomographySession.matrix s))
         (HomographySession.status s =? "solved")%string.

(* ================================================================== *)
(** ** components/CalibrationComponent.tsx *)
(* ================================================================== *)

Module Calibration.

Record Point := mkPoint {
  id : string;
  imageX : Q;
  imageY : Q;
  mapLat : option Q;
  mapLng : option Q;
  orderIdx : Z
}.

Definition mockSession (projectId : string) : HomographySession.t :=
  {| HomographySession.id := "session-uuid-123";
     HomographySession.project_id := projectId;
     HomographySession.status := "solved";
     HomographySession.created_at := "2024-12-13T10:01:00Z";
     HomographySession.solved_at := Some "2024-12-13T10:02:00Z";
     HomographySession.pairs :=
       [ SessionPair.mk "pair-1" 0.25 0.3 37.7749 (-122.4194) 0;
         SessionPair.mk "pair-2" 0.75 0.3 37.7750 (-122.4195) 1;
         SessionPair.mk "pair-3" 0.25 0.7 37.7748 (-122.4193) 2;
         SessionPair.mk "pair-4" 0.75 0.7 37.7751 (-122.4196) 3 ];
     HomographySession.matrix :=
       Some [ [1.2; 0.1; -0.5];
              [0.05; 1.1; -0.3];
              [0.001; 0.002; 1.0] ];
     HomographySession.reprojection_error := Some 1.42e-14 |}.

(** The component's state: the [useState] cells, and [alerts], the
    messages handed to [window.alert] so far (latest first).  The
    cell [imageSize] is written when the image loads and read by no
    handler; it is left out. *)
Record State := mkState {
  session : HomographySession.t;
  points : list Point;
  error : option string;
  saving : bool;
  solving : bool;
  solveResult : option SolveResponse.t;
  alerts : list string
}.

Definition setPoints (ps : list Point) (s : State) : State :=
  mkState (session s) ps (error s) (saving s) (solving s) (solveResult s) (alerts s).

Definition setError (e : option string) (s : State) : State :=
  mkState (session s) (points s) e (saving s) (solving s) (solveResult s) (alerts s).

Definition setSolveResult (r : option SolveResponse.t) (s : State) : State :=
  mkState (session s) (points s) (error s) (saving s) (solving s) r (alerts s).

Definition alert (msg : string) (s : State) : State :=
  mkState (session s) (points s) (error s) (saving s) (solving s) (solveResult s)
          (msg :: alerts s).

(** The initialiser of the [points] cell: one point per pair of the
    mock session.  [pair.id || `point-${idx}`] falls to the template
    only for the empty string; [pair.order_idx ?? idx] is
    [pair.order_idx], a required number of the session type. *)
Definition pointOfPair (pair : SessionPair.t) (idx : nat) : Point :=
  {| id := if (SessionPair.id pair =? "")%string
           then "point-" ++ JS.show (Z.of_nat idx)
           else SessionPair.id pair;
     imageX := SessionPair.image_x_norm pair;
     imageY := SessionPair.image_y_norm pair;
     mapLat := Some (SessionPair.map_lat pair);
     mapLng := Some (SessionPair.map_lng pair);
     orderIdx := SessionPair.order_idx pair |}.

Definition init (projectId : string) : State :=
  {| session := mockSession projectId;
     points := JS.mapi pointOfPair (HomographySession.pairs (mockSession projectId));
     error := None;
     saving := false;
     solving := false;
     solveResult := None;
     alerts := [] |}.

Record MouseEvent := mkMouse { clientX : Q; clientY : Q }.
Record DOMRect := mkRect { left : Q; top : Q; width : Q; height : Q }.

(** [imageRef] is [imageRef.current] with its bounding rectangle
    ([None] when the image is not mounted); [now] is [Date.now()]. *)
Definition handleImageClick (imageRef : option DOMRect) (now : Z)
           (e : MouseEvent) (s : State) : State :=
  match imageRef with
  | None => s
  | Some rect =>
      let x := (clientX e - left rect) / width rect in
      let y := (clientY e - top rect) / height rect in
      let newPoint :=
        {| id := "point-" ++ JS.show now;
           imageX := x;
           imageY := y;
           mapLat := None;
           mapLng := None;
           orderIdx := Z.of_nat (List.length (points s)) |} in
      setPoints (points s ++ [newPoint])%list s
  end.

Definition withMapCoordinates (lat lng : Q) (p : Point) : Point :=
  mkPoint (id p) (imageX p) (imageY p) (Some lat) (Some lng) (orderIdx p).

Definition handleMapCoordinatesChange (pointId : string) (lat lng : Q)
           (s : State) : State :=
  setPoints
    (map (fun p => if (id p =? pointId)%string
                   then withMapCoordinates lat lng p else p)
         (points s))
    s.

Definition handleRemovePoint (pointId : string) (s : State) : State :=
  setPoints (filter (fun p => negb (id p =? pointId)%string) (points s)) s.

(** [p.mapLat !== undefined && p.mapLng !== undefined]. *)
Definition hasMapCoordinates (p : Point) : bool :=
  JS.is_defined (mapLat p) && JS.is_defined (mapLng p).

Definition validPoints (s : State) : list Point :=
  filter hasMapCoordinates (points s).

Definition insufficientPointsMessage : string :=
  "At least 4 points with map coordinates are required".

Definition savedMessage : string :=
  "Mock: Calibration points saved successfully!".

Definition handleSave (s : State) : State :=
  if (List.length (validPoints s) <? 4)%nat
  then setError (Some insufficientPointsMessage) s
  else setError None (alert savedMessage s).

Definition solvedMessage : string :=
  "Mock: Homography solved successfully!".

Definition handleSolve (s : State) : State :=
  setSolveResult
    (Some (SolveResponse.mk true None (Some 1.42e-14) None))
    (alert solvedMessage s).

(** The [onChange] handlers of the two inputs of a rendered point;
    [parsed] is [parseFloat(e.target.value)]. *)
Definition latitudeOnChange (point : Point) (parsed : option Q) (s : State) : State :=
  handleMapCoordinatesChange (id point) (JS.or_zero parsed)
                             (JS.or_zero (mapLng point)) s.

Definition longitudeOnChange (point : Point) (parsed : option Q) (s : State) : State :=
  handleMapCoordinatesChange (id point) (JS.or_zero (mapLat point))
                             (JS.or_zero parsed) s.

(** [disabled] of the two buttons.  In the second, [!session] is
    false: the cell always holds a session object. *)
Definition saveDisabled (s : State) : bool :=
  saving s || (List.length (points s) <? 4)%nat.

Definition solveDisabled (s : State) : bool :=
  solving s || negb (HomographySession.status (session s) =? "draft")%string.

(** What the user can do to the rendered component.  The inputs and
    the Remove button belong to the point rendered at an index. *)
Inductive Event :=
| ImageClick (imageRef : option DOMRect) (now : Z) (e : MouseEvent)
| LatitudeInput (idx : nat) (parsed : option Q)
| LongitudeInput (idx : nat) (parsed : option Q)
| RemoveClick (idx : nat)
| SaveClick
| SolveClick.

(** The three ways of editing the points. *)
Definition isEdit (ev : Event) : bool :=
  match ev with
  | ImageClick _ _ _ | LatitudeInput _ _ | LongitudeInput _ _ | RemoveClick _ => true
  | SaveClick | SolveClick => false
  end.

Definition onPoint (idx : nat) (k : Point -> State -> State) (s : State) : State :=
  match nth_error (points s) idx with
  | Some p => k p s
  | None => s
  end.

(** One event: a disabled button does not run its handler. *)
Definition step (s : State) (ev : Event) : State :=
  match ev with
  | ImageClick imageRef now e => handleImageClick imageRef now e s
  | LatitudeInput idx parsed => onPoint idx (fun p => latitudeOnChange p parsed) s
  | LongitudeInput idx parsed => onPoint idx (fun p => longitudeOnChange p parsed) s
  | RemoveClick idx => onPoint idx (fun p => handleRemovePoint (id p)) s
  | SaveClick => if saveDisabled s then s else handleSave s
  | SolveClick => if solveDisabled s then s else handleSolve s
  end.

Definition run (s : State) (evs : list Event) : State := fold_left step evs s.

(** The states the component can be in, from its first render. *)
Inductive reachable (projectId : string) : State -> Prop :=
| reach_init : reachable projectId (init projectId)
| reach_step s ev : reachable projectId s -> reachable projectId (step s ev).

(** A session of use, for reference: the four mock points are removed
    and four points are clicked on a 100 by 100 image; none of the
    new points has map coordinates yet. *)
Definition image100 : option DOMRect := Some (mkRect 0 0 100 100).

Definition fourUnmappedClicks : list Event :=
  [ RemoveClick 0; RemoveClick 0; RemoveClick 0; RemoveClick 0;
    ImageClick image100 1 (mkMouse 10 10);
    ImageClick image100 2 (mkMouse 90 10);
    ImageClick image100 3 (mkMouse 10 90);
    ImageClick image100 4 (mkMouse 90 90) ].

(** The component as it would stand on a fresh session of the back
    end: status draft, no pairs, no matrix. *)
Definition draftSession (projectId : string) : HomographySession.t :=
  HomographySession.mk "session-uuid" projectId "draft" "2024-12-13T10:01:00Z"
                       None [] None None.

Definition draftState (projectId : string) : State :=
  mkState (draftSession projectId) [] None false false None [].

End Calibration.

(* ================================================================== *)
(** ** lib/api.ts: collision analysis responses *)
(* ================================================================== *)

Module KeyFrames.
Record t := mk {
  approach : option Z;
  contact : option Z;
  peak : option Z;
  separation : option Z
}.
End KeyFrames.

(** [CollisionResponse] as the Timeline component reads it.  The
  interface declares [key_frames] and the three frame fields
  required; Timeline tests each of them against absence before use,
  so they are optional here and both outcomes of every test are
  covered. *)
Module CollisionResponse.
Record t := mk {
  track_id_1 : Z;
  track_id_2 : Z;
  first_contact_frame : option Z;
  last_overlap_frame : option Z;
  peak_overlap_frame : option Z;
  max_iou : Q;
  min_distance : Q;
  duration_frames : Z;
  collision_frames : list Z;
  severity : string;
  key_frames : option KeyFrames.t
}.
End CollisionResponse.

(** The interface declarations themselves, as data: a field is a
  name, whether it is marked optional ([?]), and its type. *)
Module Schema.

#[warnings="-register-all"]
Inductive TsType :=
| TNumber
| TString
| TAny
| TArray (elem : TsType)
| TRecordOfAny                      (* Record<string, any> *)
| TNamed (name : string)            (* a reference to a named interface *)
| TObject (fields : list (string * bool * TsType)).

Definition Interface := list (string * bool * TsType).

Definition required (name : string) (ty : TsType) : string * bool * TsType :=
  (name, false, ty).
Definition optional (name : string) (ty : TsType) : string * bool * TsType :=
  (name, true, ty).

Definition CollisionResponse : Interface :=
  [ required "track_id_1" TNumber;
    required "track_id_2" TNumber;
    required "first_contact_frame" TNumber;
    required "last_overlap_frame" TNumber;
    required "peak_overlap_frame" TNumber;
    required "max_iou" TNumber;
    required "min_distance" TNumber;
    required "duration_frames" TNumber;
    required "collision_frames" (TArray TNumber);
    required "severity" TString;
    required "key_frames"
      (TObject [ optional "approach" TNumber;
                 optional "contact" TNumber;
                 optional "peak" TNumber;
                 optional "separation" TNumber ]) ].

Definition CollisionsListResponse : Interface :=
  [ required "project_id" TString;
    required "collisions" (TArray (TNamed "CollisionResponse"));
    required "near_misses" (TArray TAny);
    required "total_collisions" TNumber;
    required "total_near_misses" TNumber;
    required "analysis_summary" TRecordOfAny ].

Definition fieldNames (i : Interface) : list string :=
  map (fun f => fst (fst f)) i.

Definition lookup (name : string) (i : Interface) : option (bool * TsType) :=
  match find (fun f => (fst (fst f) =? name)%string) i with
  | Some f => Some (snd (fst f), snd f)
  | None => None
  end.

Definition hasField (name : string) (i : Interface) : bool :=
  JS.is_defined (lookup name i).

(** The field names the specification's compatibility surface lists
    for the two structures (section 6), in the order it lists them. *)
Definition spec_CollisionResponse_fields : list string :=
  [ "track_id_1"; "track_id_2"; "first_contact_frame"; "last_overlap_frame";
    "peak_overlap_frame"; "max_iou"; "min_distance"; "duration_frames";
    "collision_frames"; "severity"; "key_frames" ].

Definition spec_key_frames_fields : list string :=
  [ "approach"; "contact"; "peak"; "separation" ].

Definition spec_CollisionsListResponse_fields : list string :=
  [ "collisions"; "near_misses"; "total_collisions"; "total_near_misses";
    "analysis_summary" ].

(** The two types that section gives in [CollisionsListResponse]:
    [collisions: CollisionResponse[]] and [near_misses: NearMiss[]]. *)
Definition spec_collisions_type : TsType := TArray (TNamed "CollisionResponse").

Definition spec_near_misses_type : TsType := TArray (TNamed "NearMiss").

End Schema.

(* ================================================================== *)
(** ** components/Timeline.tsx *)
(* ================================================================== *)

Module TimelineView.

(** A timeline event without its [description] and [icon], which
    are display text and markup derived from the other fields. *)
Record TimelineEvent := mkEvent {
  phase : string;
  phaseLabel : string;
  frame : Z;
  timestamp : Q;
  color : string
}.

Definition DEFAULT_FPS : Q := 30.

Definition lowerAscii (c : ascii) : ascii :=
  let n := nat_of_ascii c in
  if ((65 <=? n) && (n <=? 90))%nat then ascii_of_nat (n + 32) else c.

Definition upperAscii (c : ascii) : ascii :=
  let n := nat_of_ascii c in
  if ((97 <=? n) && (n <=? 122))%nat then ascii_of_nat (n - 32) else c.

Fixpoint mapString (f : ascii -> ascii) (s : string) : string :=
  match s with
  | EmptyString => EmptyString
  | String c s' => String (f c) (mapString f s')
  end.

Definition toLowerCase : string -> string := mapString lowerAscii.
Definition toUpperCase : string -> string := mapString upperAscii.

(** [getPhaseInfo]: the label and colour of a phase. *)
Definition getPhaseInfo (phase : string) : string * string :=
  let phaseLower := toLowerCase phase in
  if (phaseLower =? "approach")%string then
    ("APPROACH", "bg-blue-100 text-blue-800 border-blue-300")
  else if ((phaseLower =? "contact") || (phaseLower =? "first_contact"))%string then
    ("FIRST_CONTACT", "bg-red-100 text-red-800 border-red-300")
  else if ((phaseLower =? "peak") || (phaseLower =? "peak_overlap"))%string then
    ("PEAK_OVERLAP", "bg-orange-100 text-orange-800 border-orange-300")
  else if (phaseLower =? "separation")%string then
    ("SEPARATION", "bg-green-100 text-green-800 border-green-300")
  else
    (toUpperCase phase, "bg-gray-100 text-gray-800 border-gray-300").

(** One guarded block of the component:
    [if (f !== undefined) { ...; events.push({...}) }]. *)
Definition pushPhase (phaseName : string) (fps : Q) (f : option Z)
           (events : list TimelineEvent) : list TimelineEvent :=
  match f with
  | Some frame =>
      let timestamp := inject_Z frame / fps in
      let phaseInfo := getPhaseInfo phaseName in
      (events ++ [ mkEvent phaseName (fst phaseInfo) frame timestamp (snd phaseInfo) ])%list
  | None => events
  end.

(** The default of the parameter: [fps = DEFAULT_FPS]. *)
Definition fpsOrDefault (fps : option Q) : Q :=
  match fps with Some f => f | None => DEFAULT_FPS end.

(** The [events] array the component renders; [fps] is the optional
    prop, replaced by [DEFAULT_FPS] when it is not supplied. *)
Definition Timeline (collision : CollisionResponse.t) (fps : option Q)
  : list TimelineEvent :=
  let fps := fpsOrDefault fps in
  let events := [] in
  let events :=
    match CollisionResponse.key_frames collision with
    | Some key_frames =>
        let events := pushPhase "approach" fps (KeyFrames.approach key_frames) events in
        let events := pushPhase "contact" fps (KeyFrames.contact key_frames) events in
        let events := pushPhase "peak" fps (KeyFrames.peak key_frames) events in
        pushPhase "separation" fps (KeyFrames.separation key_frames) events
    | None => events
    end in
  if (List.length events =? 0)%nat then
    let events :=
      pushPhase "contact" fps (CollisionResponse.first_contact_frame collision) events in
    let events :=
      pushPhase "peak" fps (CollisionResponse.peak_overlap_frame collision) events in
    pushPhase "separation" fps (CollisionResponse.last_overlap_frame collision) events
  else events.

(** The frames the events are built from, in the order of the code. *)
Definition presentFrames (fs : list (option Z)) : list Z :=
  flat_map (fun f => match f with Some z => [z] | None => [] end) fs.

Definition keyFrameSources (collision : CollisionResponse.t) : list Z :=
  match CollisionResponse.key_frames collision with
  | Some kf =>
      presentFrames [ KeyFrames.approach kf; KeyFrames.contact kf;
                      KeyFrames.peak kf; KeyFrames.separation kf ]
  | None => []
  end.

Definition fallbackSources (collision : CollisionResponse.t) : list Z :=
  presentFrames [ CollisionResponse.first_contact_frame collision;
                  CollisionResponse.peak_overlap_frame collision;
                  CollisionResponse.last_overlap_frame collision ].

(** The collision of the testing guide's expected response; the guide
    leaves out the distance, the duration and the frame list. *)
Definition guideCollision : CollisionResponse.t :=
  CollisionResponse.mk 1 7 (Some 55%Z) (Some 75%Z) (Some 65%Z) 0.45 0 0 [] "moderate"
    (Some (KeyFrames.mk (Some 40%Z) (Some 55%Z) (Some 65%Z) (Some 75%Z))).

End TimelineView.

(* ================================================================== *)
(** ** app/dashboard/page.tsx *)
(* ================================================================== *)

Module Dashboard.

Record State := mkState {
  projects : list Project.t;
  loading : bool;
  error : option string;
  alerts : list string
}.

(** What [await deleteProject(projectId)] does: it resolves, or it
    throws an [Error] with a message, or it throws something else. *)
Inductive DeleteOutcome :=
| Resolved
| ThrewError (message : string)
| ThrewOther.

Definition setProjects (ps : list Project.t) (s : State) : State :=
  mkState ps (loading s) (error s) (alerts s).

Definition alert (msg : string) (s : State) : State :=
  mkState (projects s) (loading s) (error s) (msg :: alerts s).

(** [handleDelete] is created by a render and closes over the
    [projects] of that render: [rendered].  [confirmed] is the answer
    to [confirm(...)], [outcome] is what the awaited call does, and
    [s] is the state when the call has settled.  It is [rendered] that
    is filtered then, whatever list [s] holds; the two are the same
    list when nothing has set the projects since that render. *)
Definition handleDelete (rendered : list Project.t) (confirmed : bool)
           (outcome : DeleteOutcome) (projectId : string) (s : State) : State :=
  if negb confirmed then s
  else
    match outcome with
    | Resolved =>
        setProjects
          (filter (fun p => negb (Project.id p =? projectId)%string) rendered) s
    | ThrewError message => alert message s
    | ThrewOther => alert "Failed to delete project" s
    end.

(** [removedById projectId before after]: [after] is [before] without
    the entries whose id is [projectId]; every other entry stays, in
    its place relative to the others. *)
Inductive removedById (projectId : string) : list Project.t -> list Project.t -> Prop :=
| removed_nil : removedById projectId [] []
| removed_drop p before after :
    Project.id p = projectId ->
    removedById projectId before after ->
    removedById projectId (p :: before) after
| removed_keep p before after :
    Project.id p <> projectId ->
    removedById projectId before after ->
    removedById projectId (p :: before) (p :: after).

Definition sampleProject (projectId name : string) : Project.t :=
  Project.mk projectId "user-1" name None "draft" None
             "2025-01-14T10:00:00Z" "2025-01-14T10:00:00Z".

End Dashboard.

(* ================================================================== *)
(** ** The analytical core, from the specification

    The session store, the IoU and severity functions and the
    collision detector run in the back end, whose code is not among
    the front-end sources; the definitions of this module follow the
    specification (sections 3, 4.2 and 4.5). *)
(* ================================================================== *)

Module Core.

Definition Qlt_bool (a b : Q) : bool := negb (Qle_bool b a).

(** *** Session lifecycle *)

Inductive Status := draft | solving | solved | failed.

Record CalibrationPoint := mkCalibrationPoint {
  image_x_norm : Q;
  image_y_norm : Q;
  world_lat : Q;
  world_lng : Q;
  order_index : Z
}.

Record Session := mkSession {
  status : Status;
  points : list CalibrationPoint;
  matrix : option (list (list Q));
  reprojection_error : option Q;
  error_message : option string
}.

Inductive Error :=
| InsufficientPointsError
| RejectedInThisStatus.

(** What the numerical solver reports when it completes. *)
Inductive SolveOutcome :=
| Success (m : list (list Q)) (rms : Q)
| SolveFailure (message : string).

(** Modelled from the spec: a session is created in [draft] without a
    matrix (section 3; the back end that creates it is absent). *)
Definition created : Session := mkSession draft [] None None None.

(** Modelled from the spec: an edit of the points (section 3 and the
    state machine of section 4.2, whose implementation is absent):
    rejected while a solve is in flight, it takes a solved session
    back to [draft] and drops the stale matrix, takes a failed one
    back to [draft], and leaves a draft in [draft]. *)
Definition edit_pairs (ps : list CalibrationPoint) (s : Session) : Session + Error :=
  match status s with
  | solving => inr RejectedInThisStatus
  | solved => inl (mkSession draft ps None None None)
  | failed => inl (mkSession draft ps (matrix s) (reprojection_error s) None)
  | draft => inl (mkSession draft ps (matrix s) (reprojection_error s) (error_message s))
  end.

(** Modelled from the spec: the start of a solve (section 4.2, absent
    from the sources): only from [draft], and only with 4 points. *)
Definition begin_solve (s : Session) : Session + Error :=
  match status s with
  | draft =>
      if (List.length (points s) <? 4)%nat then inr InsufficientPointsError
      else inl (mkSession solving (points s) (matrix s) (reprojection_error s)
                          (error_message s))
  | _ => inr RejectedInThisStatus
  end.

(** Modelled from the spec: the completion of a solve (section 4.2,
    absent from the sources): [solved] with matrix and error set, or
    [failed] with the message set and the matrix left as it was. *)
Definition complete_solve (o : SolveOutcome) (s : Session) : Session + Error :=
  match status s with
  | solving =>
      match o with
      | Success m rms => inl (mkSession solved (points s) (Some m) (Some rms) None)
      | SolveFailure message =>
          inl (mkSession failed (points s) (matrix s) (reprojection_error s)
                         (Some message))
      end
  | _ => inr RejectedInThisStatus
  end.

Inductive Op :=
| EditPairs (ps : list CalibrationPoint)
| BeginSolve
| CompleteSolve (o : SolveOutcome).

Definition apply (op : Op) (s : Session) : Session + Error :=
  match op with
  | EditPairs ps => edit_pairs ps s
  | BeginSolve => begin_solve s
  | CompleteSolve o => complete_solve o s
  end.

(** A rejected operation leaves the session as it was. *)
Definition after (op : Op) (s : Session) : Session :=
  match apply op s with
  | inl s' => s'
  | inr _ => s
  end.

Inductive reachable : Session -> Prop :=
| reach_created : reachable created
| reach_after op s : reachable s -> reachable (after op s).

Definition is_solved (st : Status) : bool :=
  match st with solved => true | _ => false end.

Definition matrix_iff_solved (s : Session) : bool :=
  Bool.eqb (JS.is_defined (matrix s)) (is_solved (status s)).

(** Modelled from the spec: the range check of the GeoProjector
    (section 4.1, absent from the sources): latitude within
    [[-90, 90]] and longitude within [[-180, 180]]. *)
Definition valid_coordinate (lat lng : Q) : bool :=
  Qle_bool (-90) lat && Qle_bool lat 90 && Qle_bool (-180) lng && Qle_bool lng 180.

(** *** Intersection over union *)

(** A bounding box [bbox(x, y, w, h)]: corner and extent. *)
Record BBox := mkBBox { bx : Q; by_ : Q; bw : Q; bh : Q }.


Definition area (b : BBox) : Q := bw b * bh b.

(** The length of the overlap of the intervals [[a, a + la]] and
    [[b, b + lb]], zero when they do not meet. *)
Definition overlap_length (a la b lb : Q) : Q :=
  Qmax 0 (Qmin (a + la) (b + lb) - Qmax a b).

Definition intersection_area (a b : BBox) : Q :=
  overlap_length (bx a) (bw a) (bx b) (bw b)
  * overlap_length (by_ a) (bh a) (by_ b) (bh b).

Definition union_area (a b : BBox) : Q :=
  area a + area b - intersection_area a b.

(** Modelled from the spec: [iou], the intersection over union of two
    axis-aligned boxes (section 4.5 and the glossary; the detector
    that computes it is absent from the sources). *)
Definition iou (a b : BBox) : Q := intersection_area a b / union_area a b.


(** *** Severity *)

Inductive Severity := minor | moderate | severe.

Definition rank (s : Severity) : nat :=
  match s with minor => 0 | moderate => 1 | severe => 2 end.

Definition label (s : Severity) : string :=
  match s with minor => "minor" | moderate => "moderate" | severe => "severe" end.

(** The configurable thresholds; each may depend on the duration. *)
Record SeverityPolicy := mkSeverityPolicy {
  moderate_iou : Z -> Q;
  severe_iou : Z -> Q
}.

(** Modelled from the spec: severity classification (section 4.5; the
    classifier is absent from the sources): the label is the highest
    one whose threshold [max_iou] reaches. *)
Definition classify (p : SeverityPolicy) (max_iou : Q) (duration_frames : Z) : Severity :=
  if Qle_bool (severe_iou p duration_frames) max_iou then severe
  else if Qle_bool (moderate_iou p duration_frames) max_iou then moderate
  else minor.

(** *** Collision detection on one pair of tracks *)

(** The two measures of one shared frame. *)
Record PairFrame := mkPairFrame {
  frame : Z;
  frame_iou : Q;
  center_distance : Q
}.

Record Config := mkConfig {
  iou_threshold : Q;
  distance_threshold : Q;
  min_collision_frames : nat;
  approach_window : nat;
  severity_policy : SeverityPolicy
}.

Definition overlapping (cfg : Config) (f : PairFrame) : bool :=
  Qle_bool (iou_threshold cfg) (frame_iou f)
  || Qle_bool (center_distance f) (distance_threshold cfg).

(** A run of overlapping frames, with the frames of the series that
    come before it ([preceding], the latest first). *)
Record Run := mkRun {
  preceding : list PairFrame;
  first : PairFrame;
  rest : list PairFrame
}.

Definition run_frames (r : Run) : list PairFrame := first r :: rest r.

Definition close (past cur_rev : list PairFrame) : list Run :=
  match rev cur_rev with
  | [] => []
  | f :: fs => [mkRun past f fs]
  end.

(** Modelled from the spec: the maximal contiguous runs of overlapping
    frames of a series (section 4.5, absent from the sources).  [past]
    holds the frames before the open run and [cur_rev] the open run,
    both latest first. *)
Fixpoint runs_from (cfg : Config) (past cur_rev l : list PairFrame) : list Run :=
  match l with
  | [] => close past cur_rev
  | f :: l' =>
      if overlapping cfg f then runs_from cfg past (f :: cur_rev) l'
      else (close past cur_rev ++ runs_from cfg (f :: cur_rev ++ past) [] l')%list
  end.

Definition runs (cfg : Config) (series : list PairFrame) : list Run :=
  runs_from cfg [] [] series.

(** The frame of maximum IoU (the first one, on ties) and the frames
    of the run after it. *)
Fixpoint peak_split (best : PairFrame) (after_best l : list PairFrame)
  : PairFrame * list PairFrame :=
  match l with
  | [] => (best, after_best)
  | f :: l' =>
      if Qlt_bool (frame_iou best) (frame_iou f) then peak_split f l' l'
      else peak_split best after_best l'
  end.

Definition peak_of (r : Run) : PairFrame * list PairFrame :=
  peak_split (first r) (rest r) (rest r).

Definition last_frame (r : Run) : PairFrame := last (rest r) (first r).

(** The first frame after the peak at which the overlap condition no
    longer holds, or the last frame of the run. *)
Definition separation_of (cfg : Config) (r : Run) : Z :=
  match find (fun f => negb (overlapping cfg f)) (snd (peak_of r)) with
  | Some f => frame f
  | None => frame (last_frame r)
  end.

(** Scanning backward: as long as the earlier frame is farther apart
    than the later one, the distance was decreasing toward contact. *)
Fixpoint approach_scan (nearer : Q) (window : list PairFrame) (found : option Z)
  : option Z :=
  match window with
  | [] => found
  | f :: w =>
      if Qlt_bool nearer (center_distance f)
      then approach_scan (center_distance f) w (Some (frame f))
      else found
  end.

Definition approach_of (cfg : Config) (r : Run) : option Z :=
  approach_scan (center_distance (first r))
                (firstn (approach_window cfg) (preceding r)) None.

(** Modelled from the spec: phase extraction (section 4.5, absent
    from the sources). *)
Definition key_frames_of (cfg : Config) (r : Run) : KeyFrames.t :=
  {| KeyFrames.approach := approach_of cfg r;
     KeyFrames.contact := Some (frame (first r));
     KeyFrames.peak := Some (frame (fst (peak_of r)));
     KeyFrames.separation := Some (separation_of cfg r) |}.

Record CollisionEvent := mkCollisionEvent {
  track_id_1 : Z;
  track_id_2 : Z;
  first_contact_frame : Z;
  peak_overlap_frame : Z;
  last_overlap_frame : Z;
  max_iou : Q;
  min_distance : Q;
  duration_frames : Z;
  collision_frames : list Z;
  severity : Severity;
  key_frames : KeyFrames.t
}.

Definition event_of (cfg : Config) (t1 t2 : Z) (r : Run) : CollisionEvent :=
  let pk := fst (peak_of r) in
  let duration := Z.of_nat (List.length (run_frames r)) in
  {| track_id_1 := t1;
     track_id_2 := t2;
     first_contact_frame := frame (first r);
     peak_overlap_frame := frame pk;
     last_overlap_frame := frame (last_frame r);
     max_iou := frame_iou pk;
     min_distance :=
       fold_left Qmin (map center_distance (rest r)) (center_distance (first r));
     duration_frames := duration;
     collision_frames := map frame (run_frames r);
     severity := classify (severity_policy cfg) (frame_iou pk) duration;
     key_frames := key_frames_of cfg r |}.

Definition qualifies (cfg : Config) (r : Run) : bool :=
  (min_collision_frames cfg <=? List.length (run_frames r))%nat.

(** Modelled from the spec: [detect] on the shared frames of one pair
    of tracks (section 4.5, absent from the sources): one event per
    run of at least [min_collision_frames] frames. *)
Definition detect (cfg : Config) (t1 t2 : Z) (series : list PairFrame)
  : list CollisionEvent :=
  map (event_of cfg t1 t2) (filter (qualifies cfg) (runs cfg series)).

(** The series of a pair is in frame order. *)
Definition in_frame_order (series : list PairFrame) : Prop :=
  StronglySorted (fun f g => (frame f < frame g)%Z) series.

(** A test of [in_frame_order]. *)
Fixpoint frames_increasing (l : list PairFrame) : bool :=
  match l with
  | [] => true
  | f :: l' => forallb (fun g => (frame f <? frame g)%Z) l' && frames_increasing l'
  end.

(** The event as the front end receives it. *)
Definition to_response (ev : CollisionEvent) : CollisionResponse.t :=
  {| CollisionResponse.track_id_1 := track_id_1 ev;
     CollisionResponse.track_id_2 := track_id_2 ev;
     CollisionResponse.first_contact_frame := Some (first_contact_frame ev);
     CollisionResponse.last_overlap_frame := Some (last_overlap_frame ev);
     CollisionResponse.peak_overlap_frame := Some (peak_overlap_frame ev);
     CollisionResponse.max_iou := max_iou ev;
     CollisionResponse.min_distance := min_distance ev;
     CollisionResponse.duration_frames := duration_frames ev;
     CollisionResponse.collision_frames := collision_frames ev;
     CollisionResponse.severity := label (severity ev);
     CollisionResponse.key_frames := Some (key_frames ev) |}.

(** When all four key frames are there they are in order. *)
Definition key_frames_ordered (kf : KeyFrames.t) : Prop :=
  match KeyFrames.approach kf, KeyFrames.contact kf,
        KeyFrames.peak kf, KeyFrames.separation kf with
  | Some a, Some c, Some p, Some s => (a <= c /\ c <= p /\ p <= s)%Z
  | _, _, _, _ => True
  end.

(** *** Reference data *)

(** Four calibration points at the corners of an intersection, and a
    session taken through an edit and a successful solve. *)
Definition cornerPoints : list CalibrationPoint :=
  [ mkCalibrationPoint 0.1 0.2 40.7128 (-74.0060) 0;
    mkCalibrationPoint 0.9 0.2 40.7129 (-74.0055) 1;
    mkCalibrationPoint 0.1 0.8 40.7125 (-74.0060) 2;
    mkCalibrationPoint 0.9 0.8 40.7126 (-74.0055) 3 ].

Definition identityMatrix : list (list Q) := [ [1; 0; 0]; [0; 1; 0]; [0; 0; 1] ].

Definition solvedSession : Session :=
  after (CompleteSolve (Success identityMatrix 0))
        (after BeginSolve (after (EditPairs cornerPoints) created)).

(** The boxes of the specification's scenario (section 8). *)
Definition scenarioBoxA : BBox := mkBBox 600 400 100 80.
Definition scenarioBoxB : BBox := mkBBox 650 420 100 80.

Definition scenarioPolicy : SeverityPolicy :=
  mkSeverityPolicy (fun _ => 0.3) (fun _ => 0.6).

Definition scenarioConfig : Config := mkConfig 0.15 50 3 10 scenarioPolicy.

(** Frames 40 to 69 of a pair that closes in until frame 48, overlaps
    with the scenario's boxes on frames 49 to 60 (more so on frame
    52) and is apart afterwards. *)
Definition scenarioFrame (z : Z) : PairFrame :=
  mkPairFrame z
    (if ((49 <=? z) && (z <=? 60))%Z
     then (if (z =? 52)%Z then 0.5 else iou scenarioBoxA scenarioBoxB)
     else 0)
    (if (z <? 49)%Z then 200 - inject_Z z else 100).

Definition scenarioSeries : list PairFrame :=
  map (fun n => scenarioFrame (Z.of_nat n)) (seq 40 30).

End Core.

(* ================================================================== *)
(** ** The browser: local storage and awaited calls *)
(* ================================================================== *)

Module Browser.

(** [localStorage]: the stored entries, one per key.  [getItem] is
    the only reader, so the order of the entries is not observable. *)
Definition Storage := list (string * string).

Fixpoint getItem (key : string) (st : Storage) : option string :=
  match st with
  | [] => None
  | (k, v) :: st' => if (k =? key)%string then Some v else getItem key st'
  end.

Definition removeItem (key : string) (st : Storage) : Storage :=
  filter (fun kv => negb (fst kv =? key)%string) st.

Definition setItem (key value : string) (st : Storage) : Storage :=
  (key, value) :: removeItem key st.

(** Where the code runs: [Some st] in a browser with storage [st],
    [None] where [typeof window === "undefined"]. *)
Definition Window := option Storage.

(** What an awaited call does: it resolves with a value, or it throws
    an [Error] with a message, or it throws something else. *)
Inductive Outcome (A : Type) :=
| Resolved (a : A)
| ThrewError (message : string)
| ThrewOther.

Arguments Resolved {A} a.
Arguments ThrewError {A} message.
Arguments ThrewOther {A}.

(** [err instanceof Error ? err.message : fallback]. *)
Definition messageOr {A} (fallback : string) (o : Outcome A) : string :=
  match o with
  | ThrewError message => message
  | _ => fallback
  end.

(** The truth value of a string that may be [null] or [undefined]. *)
Definition truthy (s : option string) : bool :=
  match s with
  | Some (String _ _) => true
  | _ => false
  end.

End Browser.

(* ================================================================== *)
(** ** lib/api.ts: tokens, requests and failures *)
(* ================================================================== *)

Module Api.

Import Browser.

Definition getAuthToken (window : Window) : option string :=
  match window with
  | None => None
  | Some st => getItem "auth_token" st
  end.

Definition setAuthToken (token : string) (window : Window) : Window :=
  match window with
  | None => None
  | Some st => Some (setItem "auth_token" token st)
  end.

Definition removeAuthToken (window : Window) : Window :=
  match window with
  | None => None
  | Some st => Some (removeItem "auth_token" st)
  end.

(** A [Record<string, string>]: assignment to a key that is there
    keeps its place, a new key goes to the end. *)
Definition Headers := list (string * string).

Fixpoint objSet (key value : string) (o : Headers) : Headers :=
  match o with
  | [] => [(key, value)]
  | (k, v) :: o' =>
      if (k =? key)%string then (key, value) :: o' else (k, v) :: objSet key value o'
  end.

Definition objGet (key : string) (o : Headers) : option string := getItem key o.

Definition objDelete (key : string) (o : Headers) : Headers := removeItem key o.

(** [{ ...o, ...src }]. *)
Definition spread (src o : Headers) : Headers :=
  fold_left (fun acc kv => objSet (fst kv) (snd kv) acc) src o.

Inductive Body :=
| NoBody
| TextBody (text : string)
| FormDataBody.

Record RequestInit := mkInit {
  method : option string;
  body : Body;
  headers : option Headers
}.

(** What [fetch] is called with. *)
Record Request := mkRequest {
  url : string;
  requestMethod : option string;
  requestBody : Body;
  requestHeaders : Headers
}.

(** The headers the caller passes, none when [options.headers] is
    [undefined]. *)
Definition callerHeaders (options : RequestInit) : Headers :=
  match headers options with Some h => h | None => [] end.

(** The request [apiRequest] sends; [apiBaseUrl] is [API_BASE_URL]
    and [token] is [getAuthToken()]. *)
Definition apiRequest_fetch (apiBaseUrl : string) (token : option string)
           (endpoint : string) (options : RequestInit) : Request :=
  let headers :=
    spread (match headers options with Some h => h | None => [] end)
           [("Content-Type", "application/json")] in
  let headers :=
    match token with
    | Some t => if truthy token then objSet "Authorization" ("Bearer " ++ t) headers
                else headers
    | None => headers
    end in
  let headers :=
    match body options with
    | FormDataBody => objDelete "Content-Type" headers
    | _ => headers
    end in
  mkRequest (apiBaseUrl ++ endpoint) (method options) (body options) headers.

(** A parsed JSON value; an object has one entry per key. *)
#[warnings="-register-all"]
Inductive Json :=
| JNull
| JBool (b : bool)
| JNumber (q : Q)
| JString (s : string)
| JArray (items : list Json)
| JObject (fields : list (string * Json)).

Definition jsTruthy (j : Json) : bool :=
  match j with
  | JNull => false
  | JBool b => b
  | JNumber q => negb (Qeq_bool q 0)
  | JString s => truthy (Some s)
  | JArray _ | JObject _ => true
  end.

Fixpoint field (key : string) (fields : list (string * Json)) : option Json :=
  match fields with
  | [] => None
  | (k, v) :: fields' => if (k =? key)%string then Some v else field key fields'
  end.

(** A response: [json] is [None] when the body is not JSON and
    [response.json()] rejects. *)
Record Response := mkResponse {
  ok : bool;
  statusText : string;
  json : option Json
}.

(** What a request function throws: [new Error(message)] with a
    string, [new Error(v)] with another truthy value [v], the
    [TypeError] of reading a property of [null], or the rejection of
    [response.json()].  The message of [new Error(v)] is the string
    form of [v], which is not rendered here; it is empty for the
    empty array. *)
Inductive Thrown :=
| ErrorWith (message : string)
| ErrorOfValue (v : Json)
| TypeErrorThrown
| JsonRejected.

Inductive Result :=
| Returned (data : Json)
| Threw (t : Thrown).

(** The failure branch shared by [apiRequest], [login], [signup] and
    [uploadVideo]:
    [error = await response.json().catch(() => ({ detail: response.statusText }));
     throw new Error(error.detail || fallback)]. *)
Definition failure (fallback : string) (r : Response) : Thrown :=
  let error :=
    match json r with
    | Some j => j
    | None => JObject [("detail", JString (statusText r))]
    end in
  match error with
  | JNull => TypeErrorThrown
  | JObject fields =>
      match field "detail" fields with
      | Some d =>
          if jsTruthy d
          then match d with JString s => ErrorWith s | _ => ErrorOfValue d end
          else ErrorWith fallback
      | None => ErrorWith fallback
      end
  | _ => ErrorWith fallback
  end.

Definition respond (fallback : string) (r : Response) : Result :=
  if ok r then
    match json r with
    | Some j => Returned j
    | None => Threw JsonRejected
    end
  else Threw (failure fallback r).

Definition apiRequest_result (r : Response) : Result :=
  respond ("API error: " ++ statusText r) r.

Definition login_result (r : Response) : Result := respond "Login failed" r.

Definition signup_result (r : Response) : Result := respond "Signup failed" r.

(** [uploadVideo] throws before any request when there is no token. *)
Definition uploadVideo_result (token : option string) (r : Response) : Result :=
  if truthy token then respond "Upload failed" r
  else Threw (ErrorWith "Not authenticated").

(** The optional parameters of [getProjectCollisions]. *)
Inductive CollisionParam :=
| iou_threshold
| distance_threshold
| persistence_frames
| min_collision_frames.

Definition paramName (p : CollisionParam) : string :=
  match p with
  | iou_threshold => "iou_threshold"
  | distance_threshold => "distance_threshold"
  | persistence_frames => "persistence_frames"
  | min_collision_frames => "min_collision_frames"
  end.

Fixpoint join (sep : string) (parts : list string) : string :=
  match parts with
  | [] => ""
  | [p] => p
  | p :: parts' => p ++ sep ++ join sep parts'
  end.

(** The entries of [params] whose value is not [undefined], as
    [URLSearchParams] serialises them; [numberToQuery] is the
    serialised [value.toString()]. *)
Definition queryParts (numberToQuery : Q -> string)
           (params : option (list (CollisionParam * option Q))) : list string :=
  match params with
  | None => []
  | Some entries =>
      flat_map (fun kv => match snd kv with
                          | Some value => [paramName (fst kv) ++ "=" ++ numberToQuery value]
                          | None => []
                          end) entries
  end.

Definition getProjectCollisions_endpoint (numberToQuery : Q -> string)
           (projectId : string) (params : option (list (CollisionParam * option Q)))
  : string :=
  let query := join "&" (queryParts numberToQuery params) in
  "/analysis/project/" ++ projectId ++ "/collisions"
  ++ (if (query =? "")%string then "" else "?" ++ query).

(** [getProjectSummaries]: [limit ? `?limit=${limit}` : ""], for a
    whole number [limit]. *)
Definition getProjectSummaries_endpoint (projectId : string) (limit : option Z) : string :=
  let query :=
    match limit with
    | Some n => if (n =? 0)%Z then "" else "?limit=" ++ JS.show n
    | None => ""
    end in
  "/kestra/project/" ++ projectId ++ "/summaries" ++ query.

End Api.

(* ================================================================== *)
(** ** app/login/page.tsx, components/ui/Navbar.tsx and the mount
       effect of app/dashboard/page.tsx *)
(* ================================================================== *)

Module Auth.

Import Browser.

(** What of the browser the three components touch: the storage, and
    the routes pushed to the router (latest first). *)
Record World := mkWorld {
  window : Window;
  routes : list string
}.

Definition push (route : string) (w : World) : World :=
  mkWorld (window w) (route :: routes w).

Record LoginResponse := mkLoginResponse {
  access_token : string;
  token_type : string
}.

(** [onSubmit] of the login form; the result is the world and the
    [error] cell. *)
Definition onSubmit (outcome : Outcome LoginResponse) (w : World)
  : World * option string :=
  match outcome with
  | Resolved response =>
      (push "/" (mkWorld (Api.setAuthToken (access_token response) (window w))
                         (routes w)),
       None)
  | _ => (w, Some (messageOr "Login failed. Please try again." outcome))
  end.

(** [checkAuth] of the navigation bar and of the home page:
    [!!getAuthToken()]. *)
Definition checkAuth (w : World) : bool := truthy (Api.getAuthToken (window w)).

(** [handleLogout]; the [isLoggedIn] cell becomes [false]. *)
Definition handleLogout (w : World) : World * bool :=
  (push "/login" (mkWorld (Api.removeAuthToken (window w)) (routes w)), false).

Definition setLoading (b : bool) (s : Dashboard.State) : Dashboard.State :=
  Dashboard.mkState (Dashboard.projects s) b (Dashboard.error s) (Dashboard.alerts s).

Definition setError (e : option string) (s : Dashboard.State) : Dashboard.State :=
  Dashboard.mkState (Dashboard.projects s) (Dashboard.loading s) e (Dashboard.alerts s).

(** The dashboard as first rendered. *)
Definition dashboardInitial : Dashboard.State :=
  Dashboard.mkState [] true None [].

(** The effect the dashboard runs on mount; [outcome] is what
    [await getProjects()] does, with [response.data] as its value. *)
Definition dashboardMount (outcome : Outcome (list Project.t))
           (w : World) (s : Dashboard.State) : World * Dashboard.State :=
  if negb (truthy (Api.getAuthToken (window w))) then (push "/login" w, s)
  else
    match outcome with
    | Resolved data => (w, setLoading false (Dashboard.setProjects data s))
    | _ => (w, setLoading false
                 (setError (Some (messageOr "Failed to load projects" outcome)) s))
    end.

End Auth.

(* ================================================================== *)
(** ** app/dashboard/page.tsx: a delete that resolves later *)
(* ================================================================== *)

Module DashboardAsync.

(** The branch of [handleDelete] that is taken when the user has
    confirmed and the awaited call resolves: the list of the render,
    [rendered], is filtered, whatever the state holds by then. *)
Definition resolveDelete (rendered : list Project.t) (projectId : string)
           (s : Dashboard.State) : Dashboard.State :=
  Dashboard.setProjects
    (filter (fun p => negb (Project.id p =? projectId)%string) rendered) s.

End DashboardAsync.

(* ================================================================== *)
(** ** components/VideoUploadBox.tsx *)
(* ================================================================== *)

Module Upload.

Import Browser.

Record File := mkFile {
  name : string;
  type : string
}.

(** The cells the two handlers read or write; [projects] and
    [isLoadingProjects], which they do not touch, are left out. *)
Record State := mkState {
  videoFile : option File;
  projectTitle : string;
  projectDescription : string;
  selectedProjectId : string;
  isLoading : bool;
  error : option string;
  useExistingProject : bool
}.

Definition setVideoFile (f : option File) (s : State) : State :=
  mkState f (projectTitle s) (projectDescription s) (selectedProjectId s)
          (isLoading s) (error s) (useExistingProject s).

Definition setError (e : option string) (s : State) : State :=
  mkState (videoFile s) (projectTitle s) (projectDescription s) (selectedProjectId s)
          (isLoading s) e (useExistingProject s).

Definition setIsLoading (b : bool) (s : State) : State :=
  mkState (videoFile s) (projectTitle s) (projectDescription s) (selectedProjectId s)
          b (error s) (useExistingProject s).

(** [files] is [e.target.files], a list when it is not [null]. *)
Definition handleFileChange (files : option (list File)) (s : State) : State :=
  match files with
  | Some (file :: _) =>
      if negb (String.prefix "video/" (type file))
      then setError (Some "Please select a valid video file") s
      else setError None (setVideoFile (Some file) s)
  | _ => s
  end.

(** The selected file, if any, has a video type. *)
Definition videoSelected (s : State) : bool :=
  match videoFile s with
  | Some file => String.prefix "video/" (type file)
  | None => true
  end.

(** What [handleUpload] does to the outside, in order. *)
Inductive Action :=
| CreateProject (title : string) (description : option string)
| UploadVideo (projectId : string) (file : File)
| Push (route : string).

Definition nonEmpty (s : string) : bool := truthy (Some s).

Definition isUpload (a : Action) : bool :=
  match a with UploadVideo _ _ => true | _ => false end.

Definition isCreate (a : Action) : bool :=
  match a with CreateProject _ _ => true | _ => false end.

(** [disabled] of the upload button; [trim] is [String.prototype.trim]. *)
Definition uploadDisabled (trim : string -> string) (s : State) : bool :=
  negb (JS.is_defined (videoFile s))
  || isLoading s
  || (useExistingProject s && negb (nonEmpty (selectedProjectId s)))
  || (negb (useExistingProject s) && negb (nonEmpty (trim (projectTitle s)))).

(** After the [try] block, whichever way it ends:
    [finally { setIsLoading(false) }]. *)
Definition finish (s : State) : State := setIsLoading false s.

(** The second half of [handleUpload]: the upload itself. *)
Definition uploadTo (projectId : string) (file : File) (upload : Outcome unit)
           (done : list Action) (s : State) : State * list Action :=
  let done := (done ++ [UploadVideo projectId file])%list in
  match upload with
  | Resolved _ => (finish s, (done ++ [Push ("/incident/" ++ projectId)])%list)
  | _ => (finish (setError (Some (messageOr "Failed to upload video" upload)) s), done)
  end.

(** [handleUpload]; [create] and [upload] are what the two awaited
    calls do when they are made. *)
Definition handleUpload (trim : string -> string) (actuallyLoggedIn : bool)
           (create : Outcome Project.t) (upload : Outcome unit)
           (s : State) : State * list Action :=
  if negb actuallyLoggedIn then (s, [Push "/login"])
  else
    match videoFile s with
    | None => (s, [])
    | Some file =>
        let s := setError None (setIsLoading true s) in
        if negb (useExistingProject s) || negb (nonEmpty (selectedProjectId s)) then
          if negb (nonEmpty (trim (projectTitle s))) then
            (finish (setIsLoading false (setError (Some "Please enter a project title") s)),
             [])
          else
            let description :=
              if nonEmpty (projectDescription s) then Some (projectDescription s)
              else None in
            let done := [CreateProject (projectTitle s) description] in
            match create with
            | Resolved newProject => uploadTo (Project.id newProject) file upload done s
            | _ => (finish (setError (Some (messageOr "Failed to upload video" create)) s),
                    done)
            end
        else uploadTo (selectedProjectId s) file upload [] s
    end.

End Upload.

(* ================================================================== *)
(** ** components/Timeline.tsx: the events, listed *)
(* ================================================================== *)

Module TimelineTable.

(** A phase name, its label, and the frame it is taken from. *)
Definition Source := (string * string * option Z)%type.

Definition present (sources : list Source) : list (string * string * Z) :=
  flat_map (fun src => match snd src with
                       | Some frame => [(fst (fst src), snd (fst src), frame)]
                       | None => []
                       end) sources.

Definition keyFrameTable (collision : CollisionResponse.t) : list Source :=
  match CollisionResponse.key_frames collision with
  | Some kf =>
      [ ("approach", "APPROACH", KeyFrames.approach kf);
        ("contact", "FIRST_CONTACT", KeyFrames.contact kf);
        ("peak", "PEAK_OVERLAP", KeyFrames.peak kf);
        ("separation", "SEPARATION", KeyFrames.separation kf) ]
  | None => []
  end.

Definition fallbackTable (collision : CollisionResponse.t) : list Source :=
  [ ("contact", "FIRST_CONTACT", CollisionResponse.first_contact_frame collision);
    ("peak", "PEAK_OVERLAP", CollisionResponse.peak_overlap_frame collision);
    ("separation", "SEPARATION", CollisionResponse.last_overlap_frame collision) ].

(** What an event shows besides its time. *)
Definition shown (e : TimelineView.TimelineEvent) : string * string * Z :=
  (TimelineView.phase e, TimelineView.phaseLabel e, TimelineView.frame e).

End TimelineTable.

(* ================================================================== *)
(** * Properties *)
(* ================================================================== *)

(** ** The calibration component *)

Section CalibrationFacts.

Import Calibration.

Lemma validPoints_le_points (s : State) :
  (List.length (validPoints s) <= List.length (points s))%nat.
Proof. apply filter_length_le. Qed.

(** No handler writes the session cell. *)
Lemma handleImageClick_session imageRef now e s :
  session (handleImageClick imageRef now e s) = session s.
Proof. destruct imageRef; reflexivity. Qed.

Lemma handleSave_session s : session (handleSave s) = session s.
Proof. unfold handleSave. destruct (_ <? _)%nat; reflexivity. Qed.

Lemma onPoint_session idx k s :
  (forall p, session (k p s) = session s) ->
  session (onPoint idx k s) = session s.
Proof. intros Hk. unfold onPoint. destruct (nth_error _ _); auto. Qed.

Lemma step_session s ev : session (step s ev) = session s.
Proof.
  destruct ev; simpl.
  - apply handleImageClick_session.
  - apply onPoint_session. reflexivity.
  - apply onPoint_session. reflexivity.
  - apply onPoint_session. reflexivity.
  - destruct (saveDisabled s); [reflexivity | apply handleSave_session].
  - destruct (solveDisabled s); reflexivity.
Qed.

Lemma reachable_session projectId s :
  reachable projectId s -> session s = mockSession projectId.
Proof.
  induction 1 as [| s ev _ IH]; [reflexivity |].
  rewrite step_session. exact IH.
Qed.

Lemma reachable_run projectId s evs :
  reachable projectId s -> reachable projectId (run s evs).
Proof.
  revert s. induction evs as [| ev evs IH]; intros s Hs; simpl; [exact Hs |].
  apply IH. constructor. exact Hs.
Qed.

Lemma is_defined_iff {A} (x : option A) : JS.is_defined x = true <-> x <> None.
Proof. destruct x; simpl; split; congruence. Qed.

Lemma matrix_iff_solved_spec (h : HomographySession.t) :
  matrix_iff_solved h = true <->
  (HomographySession.matrix h <> None <-> HomographySession.status h = "solved").
Proof.
  unfold matrix_iff_solved. rewrite Bool.eqb_true_iff.
  rewrite <- is_defined_iff, <- String.eqb_eq.
  destruct (JS.is_defined _), (_ =? _)%string; intuition congruence.
Qed.

End CalibrationFacts.

(** ** The session lifecycle of the specification *)

Section LifecycleFacts.

Import Core.

Lemma core_matrix_iff_solved_spec (s : Session) :
  Core.matrix_iff_solved s = true <-> (matrix s <> None <-> status s = solved).
Proof.
  unfold Core.matrix_iff_solved. rewrite Bool.eqb_true_iff.
  destruct (matrix s), (status s); simpl; intuition congruence.
Qed.

(** Each operation keeps the invariant. *)
Lemma after_keeps_invariant op s :
  Core.matrix_iff_solved s = true -> Core.matrix_iff_solved (after op s) = true.
Proof.
  unfold after, apply, edit_pairs, begin_solve, complete_solve,
    Core.matrix_iff_solved.
  destruct s as [st pts m rms msg]; simpl. intros H.
  destruct op as [ps | | o]; destruct st; simpl in *; auto.
  - destruct (_ <? _)%nat; simpl; auto.
  - destruct o; simpl; auto.
Qed.

Lemma reachable_invariant s : Core.reachable s -> Core.matrix_iff_solved s = true.
Proof.
  induction 1 as [| op s _ IH]; [reflexivity |].
  apply after_keeps_invariant, IH.
Qed.

End LifecycleFacts.

(** ** Saving needs four points with map coordinates *)

Section SaveFacts.

Import Calibration.

(** C1, as stated, fails: after the four mock points are removed and
    four points are clicked, fewer than four points carry map
    coordinates, yet the Save button is not disabled. *)
Lemma C1_save_enabled_without_coordinates :
  ~ (forall s, reachable "project-1" s ->
               (List.length (validPoints s) < 4)%nat -> saveDisabled s = true).
Proof.
  intros H.
  assert (Hd : saveDisabled (run (init "project-1") fourUnmappedClicks) = true).
  { apply H; [apply reachable_run, reach_init | vm_compute; lia]. }
  vm_compute in Hd. discriminate Hd.
Qed.

(** C1, amended: with fewer than four points carrying both map
    coordinates [handleSave] sets the insufficient-points error and
    returns without saving (no alert, no solve, points and session as
    they were); with four or more it saves and clears the error; and
    the Save button is disabled exactly when a save is in progress or
    fewer than four points are listed at all, with or without
    coordinates, in which case fewer than four carry them.
    [handleSolve] looks at no points: it reports the mock solve
    whatever the points are and raises no error. *)
Theorem C1_handleSave_needs_four_valid_points (s : State) :
  ((List.length (validPoints s) < 4)%nat ->
     error (handleSave s) = Some insufficientPointsMessage /\
     alerts (handleSave s) = alerts s /\
     solveResult (handleSave s) = solveResult s /\
     points (handleSave s) = points s /\
     session (handleSave s) = session s) /\
  ((4 <= List.length (validPoints s))%nat ->
     error (handleSave s) = None /\
     alerts (handleSave s) = savedMessage :: alerts s /\
     solveResult (handleSave s) = solveResult s) /\
  (saveDisabled s = true <->
     saving s = true \/ (List.length (points s) < 4)%nat) /\
  ((List.length (points s) < 4)%nat -> (List.length (validPoints s) < 4)%nat) /\
  (SolveResponse.success
     (match solveResult (handleSolve s) with
      | Some r => r
      | None => SolveResponse.mk false None None None
      end) = true /\
   error (handleSolve s) = error s /\
   alerts (handleSolve s) = solvedMessage :: alerts s).
Proof.
  unfold handleSave, saveDisabled. split; [| split; [| split; [| split]]].
  - intros Hlt. apply Nat.ltb_lt in Hlt. rewrite Hlt. repeat split.
  - intros Hge. apply Nat.ltb_ge in Hge. rewrite Hge. repeat split.
  - rewrite orb_true_iff, Nat.ltb_lt. reflexivity.
  - intros Hlt. pose proof (validPoints_le_points s). lia.
  - repeat split.
Qed.

Lemma C1_handleSave_witness :
  let s0 := run (init "project-1") fourUnmappedClicks in
  let s1 := init "project-1" in
  let s2 := step (init "project-1") (RemoveClick 0) in
  ((List.length (validPoints s0) < 4)%nat /\
   error (handleSave s0) = Some insufficientPointsMessage /\
   alerts (handleSave s0) = alerts s0) /\
  ((4 <= List.length (validPoints s1))%nat /\
   error (handleSave s1) = None /\
   alerts (handleSave s1) = savedMessage :: alerts s1) /\
  ((List.length (points s2) < 4)%nat /\ (List.length (validPoints s2) < 4)%nat).
Proof.
  intros s0 s1 s2.
  assert (H0 : (List.length (validPoints s0) < 4)%nat) by (vm_compute; lia).
  assert (H1 : (4 <= List.length (validPoints s1))%nat) by (vm_compute; lia).
  assert (H2 : (List.length (points s2) < 4)%nat) by (vm_compute; lia).
  destruct (C1_handleSave_needs_four_valid_points s0) as [L0 _].
  destruct (C1_handleSave_needs_four_valid_points s1) as [_ [G1 _]].
  destruct (C1_handleSave_needs_four_valid_points s2) as [_ [_ [_ [V2 _]]]].
  destruct (L0 H0) as [E0 [A0 _]]. destruct (G1 H1) as [E1 [A1 _]].
  repeat split; auto.
Defined.

End SaveFacts.

(** ** The session invariant *)

Section SessionInvariant.

(** C2: every session the calibration component holds, whatever the
    user does, and every session the specification's lifecycle
    produces, has its matrix present if and only if its status is
    solved. *)
Theorem C2_matrix_present_iff_solved :
  (forall projectId s,
      Calibration.reachable projectId s ->
      HomographySession.matrix (Calibration.session s) <> None <->
      HomographySession.status (Calibration.session s) = "solved") /\
  (forall s,
      Core.reachable s ->
      Core.matrix s <> None <-> Core.status s = Core.solved).
Proof.
  split.
  - intros projectId s Hs. apply matrix_iff_solved_spec.
    rewrite (reachable_session _ _ Hs). reflexivity.
  - intros s Hs. apply core_matrix_iff_solved_spec, reachable_invariant, Hs.
Qed.

End SessionInvariant.

Lemma C2_matrix_present_iff_solved_witness :
  (HomographySession.matrix
     (Calibration.session
        (Calibration.step (Calibration.init "project-1") (Calibration.RemoveClick 0)))
     <> None <->
   HomographySession.status
     (Calibration.session
        (Calibration.step (Calibration.init "project-1") (Calibration.RemoveClick 0)))
     = "solved") /\
  (Core.matrix Core.solvedSession <> None <->
   Core.status Core.solvedSession = Core.solved).
Proof.
  destruct C2_matrix_present_iff_solved as [Hfront Hcore]. split.
  - apply (Hfront "project-1"). apply Calibration.reach_step, Calibration.reach_init.
  - apply Hcore. unfold Core.solvedSession.
    repeat apply Core.reach_after. apply Core.reach_created.
Defined.

(** ** Editing the points *)

Section EditFacts.

Import Calibration.

(** C3, as stated, fails: the mock session is solved, and after a
    point is removed it is still solved, not draft. *)
Lemma C3_edit_leaves_status_solved :
  ~ (forall s ev,
        reachable "project-1" s -> isEdit ev = true ->
        HomographySession.status (session s) = "solved" \/
        HomographySession.status (session s) = "failed" ->
        HomographySession.status (session (step s ev)) = "draft").
Proof.
  intros H.
  specialize (H (init "project-1") (RemoveClick 0) (reach_init _) eq_refl
                (or_introl eq_refl)).
  vm_compute in H. discriminate H.
Qed.

(** C3, amended: an edit of the points in the calibration component
    (a click on the image, a removal, a change of map coordinates)
    changes the points only and leaves the session, its status and
    its matrix, as it was; and the Solve button runs the solve only on
    a session whose status is draft and while no solve is in
    progress. *)
Theorem C3_edit_keeps_session_solve_needs_draft (s : State) (ev : Event) :
  (isEdit ev = true ->
     session (step s ev) = session s /\
     solveResult (step s ev) = solveResult s /\
     error (step s ev) = error s /\
     alerts (step s ev) = alerts s) /\
  (step s SolveClick <> s ->
     HomographySession.status (session s) = "draft" /\ solving s = false).
Proof.
  split.
  - intros Hedit. split; [apply step_session |].
    destruct ev; try discriminate Hedit; simpl.
    + destruct imageRef; repeat split.
    + unfold onPoint. destruct (nth_error _ _); repeat split.
    + unfold onPoint. destruct (nth_error _ _); repeat split.
    + unfold onPoint. destruct (nth_error _ _); repeat split.
  - simpl. unfold solveDisabled. intros Hrun.
    destruct (solving s); simpl in *; [congruence |].
    destruct (_ =? _)%string eqn:E; simpl in *; [| congruence].
    apply String.eqb_eq in E. auto.
Qed.

End EditFacts.

Lemma C3_edit_keeps_session_witness :
  (Calibration.isEdit (Calibration.RemoveClick 0) = true /\
   Calibration.session
     (Calibration.step (Calibration.init "project-1") (Calibration.RemoveClick 0))
   = Calibration.session (Calibration.init "project-1")) /\
  (Calibration.step (Calibration.draftState "project-1") Calibration.SolveClick
     <> Calibration.draftState "project-1" /\
   HomographySession.status (Calibration.session (Calibration.draftState "project-1"))
   = "draft").
Proof.
  split.
  - split; [reflexivity |].
    apply (C3_edit_keeps_session_solve_needs_draft
             (Calibration.init "project-1") (Calibration.RemoveClick 0)).
    reflexivity.
  - assert (Hrun : Calibration.step (Calibration.draftState "project-1")
                                    Calibration.SolveClick
                   <> Calibration.draftState "project-1").
    { intros H. apply (f_equal Calibration.alerts) in H. discriminate H. }
    split; [exact Hrun |].
    apply (C3_edit_keeps_session_solve_needs_draft
             (Calibration.draftState "project-1") Calibration.SolveClick).
    exact Hrun.
Defined.

(** ** Entering map coordinates *)

Section CoordinateFacts.

Import Calibration.

(** C7, as stated, fails: a latitude of 91 typed into the first
    point's input is stored, the point counts as valid, and a save
    goes through without an error. *)
Lemma C7_out_of_range_latitude_is_stored :
  ~ (forall s idx parsed p lat lng,
        reachable "project-1" s ->
        In p (validPoints (step s (LatitudeInput idx parsed))) ->
        mapLat p = Some lat -> mapLng p = Some lng ->
        Core.valid_coordinate lat lng = true) /\
  (let s := step (init "project-1") (LatitudeInput 0 (Some 91)) in
   error (step s SaveClick) = None /\ alerts (step s SaveClick) = [savedMessage]).
Proof.
  split; [| split; reflexivity].
  intros H.
  specialize (H (init "project-1") 0%nat (Some 91)
                (mkPoint "pair-1" 0.25 0.3 (Some 91) (Some (-122.4194)) 0)
                91 (-122.4194) (reach_init _)).
  assert (Hv : Core.valid_coordinate 91 (-122.4194) = true).
  { apply H; [left; reflexivity | reflexivity | reflexivity]. }
  vm_compute in Hv. discriminate Hv.
Qed.

Lemma handleMapCoordinatesChange_points pointId lat lng s :
  points (handleMapCoordinatesChange pointId lat lng s)
  = map (fun p => if (id p =? pointId)%string
                  then withMapCoordinates lat lng p else p) (points s).
Proof. reflexivity. Qed.

(** C7, amended: the coordinate-entry path of the front end looks at
    no range.  Whatever latitude and longitude
    [handleMapCoordinatesChange] is given, every point with the given
    id is stored with exactly these two values and counts as a valid
    point for saving, and every other point is kept as it was; the two
    inputs pass on the parsed number, with 0 for an empty or
    unparsable entry. *)
Theorem C7_coordinates_stored_unchecked
        (pointId : string) (lat lng : Q) (s : State) (p : Point) :
  In p (points s) ->
  (id p = pointId ->
     In (withMapCoordinates lat lng p)
        (validPoints (handleMapCoordinatesChange pointId lat lng s)) /\
     mapLat (withMapCoordinates lat lng p) = Some lat /\
     mapLng (withMapCoordinates lat lng p) = Some lng) /\
  (id p <> pointId ->
     In p (points (handleMapCoordinatesChange pointId lat lng s))) /\
  (forall parsed,
     latitudeOnChange p parsed s
     = handleMapCoordinatesChange (id p) (JS.or_zero parsed)
                                  (JS.or_zero (mapLng p)) s /\
     longitudeOnChange p parsed s
     = handleMapCoordinatesChange (id p) (JS.or_zero (mapLat p))
                                  (JS.or_zero parsed) s).
Proof.
  intros Hin. split; [| split].
  - intros Hid. split; [| split; reflexivity].
    unfold validPoints. apply filter_In. split; [| reflexivity].
    rewrite handleMapCoordinatesChange_points. apply in_map_iff.
    exists p. split; [| exact Hin].
    apply String.eqb_eq in Hid. rewrite Hid. reflexivity.
  - intros Hid. rewrite handleMapCoordinatesChange_points. apply in_map_iff.
    exists p. split; [| exact Hin].
    apply String.eqb_neq in Hid. rewrite Hid. reflexivity.
  - intros parsed. split; reflexivity.
Qed.

End CoordinateFacts.

Lemma C7_coordinates_stored_unchecked_witness :
  let s := Calibration.init "project-1" in
  let p := Calibration.mkPoint "pair-1" 0.25 0.3 (Some 37.7749) (Some (-122.4194)) 0 in
  In p (Calibration.points s) /\
  In (Calibration.withMapCoordinates 91 (-200) p)
     (Calibration.validPoints
        (Calibration.handleMapCoordinatesChange "pair-1" 91 (-200) s)) /\
  Calibration.id p <> "pair-2" /\
  In p (Calibration.points
          (Calibration.handleMapCoordinatesChange "pair-2" 91 (-200) s)).
Proof.
  intros s p.
  assert (Hin : In p (Calibration.points s)) by (left; reflexivity).
  assert (Hid : Calibration.id p <> "pair-2") by discriminate.
  split; [exact Hin |]. split; [| split; [exact Hid |]].
  - apply (C7_coordinates_stored_unchecked "pair-1" 91 (-200) s p Hin). reflexivity.
  - apply (C7_coordinates_stored_unchecked "pair-2" 91 (-200) s p Hin). exact Hid.
Defined.

(** ** The response structures *)

Section SchemaFacts.

Import Schema.

(** C8, as stated, fails for the list response: the interface
    declares a field more than the compatibility surface names,
    [project_id], and it types [near_misses] as a list of anything,
    not as a list of [NearMiss]. *)
Lemma C8_list_response_declares_more :
  fieldNames CollisionsListResponse <> spec_CollisionsListResponse_fields /\
  hasField "project_id" CollisionsListResponse = true /\
  ~ In "project_id" spec_CollisionsListResponse_fields /\
  lookup "near_misses" CollisionsListResponse <> Some (false, spec_near_misses_type).
Proof.
  split; [discriminate |]. split; [reflexivity |]. split; [| discriminate].
  simpl. intros H.
  repeat (destruct H as [H | H]; [discriminate H |]). exact H.
Qed.

(** C8, amended: the [CollisionResponse] interface has exactly the
    fields the compatibility surface names, all numbers but
    [collision_frames], a list of numbers, [severity], a string, and
    [key_frames], an object of the four optional numbers approach,
    contact, peak and separation.  The [CollisionsListResponse]
    interface has exactly [project_id], a string, followed by the five
    fields the surface names: collisions, a list of
    [CollisionResponse], near_misses, a list of anything,
    total_collisions and total_near_misses, numbers, and
    analysis_summary, a record of anything. *)
Theorem C8_response_fields_as_declared :
  fieldNames CollisionResponse = spec_CollisionResponse_fields /\
  Forall (fun name => lookup name CollisionResponse = Some (false, TNumber))
         [ "track_id_1"; "track_id_2"; "first_contact_frame"; "last_overlap_frame";
           "peak_overlap_frame"; "max_iou"; "min_distance"; "duration_frames" ] /\
  lookup "collision_frames" CollisionResponse = Some (false, TArray TNumber) /\
  lookup "severity" CollisionResponse = Some (false, TString) /\
  lookup "key_frames" CollisionResponse
  = Some (false, TObject (map (fun name => optional name TNumber)
                              spec_key_frames_fields)) /\
  fieldNames CollisionsListResponse
  = "project_id" :: spec_CollisionsListResponse_fields /\
  lookup "project_id" CollisionsListResponse = Some (false, TString) /\
  lookup "collisions" CollisionsListResponse = Some (false, spec_collisions_type) /\
  lookup "near_misses" CollisionsListResponse = Some (false, TArray TAny) /\
  lookup "total_collisions" CollisionsListResponse = Some (false, TNumber) /\
  lookup "total_near_misses" CollisionsListResponse = Some (false, TNumber) /\
  lookup "analysis_summary" CollisionsListResponse = Some (false, TRecordOfAny).
Proof.
  repeat split; repeat constructor.
Qed.

End SchemaFacts.

(** ** The timeline *)

Section TimelineFacts.

Import TimelineView.

Lemma pushPhase_frames name fps f events :
  map frame (pushPhase name fps f events)
  = (map frame events ++ presentFrames [f])%list.
Proof.
  destruct f as [z |]; simpl.
  - rewrite map_app. reflexivity.
  - rewrite app_nil_r. reflexivity.
Qed.

Lemma pushPhase_timestamps name fps f events :
  Forall (fun e => timestamp e = inject_Z (frame e) / fps) events ->
  Forall (fun e => timestamp e = inject_Z (frame e) / fps)
         (pushPhase name fps f events).
Proof.
  intros H. destruct f as [z |]; simpl; [| exact H].
  apply Forall_app. split; [exact H |]. repeat constructor.
Qed.

(** The frames of the events, in order: those of [key_frames] when
    there is at least one, the three fall-back fields otherwise. *)
Lemma Timeline_frames collision fps :
  map frame (Timeline collision fps)
  = match keyFrameSources collision with
    | [] => fallbackSources collision
    | fs => fs
    end.
Proof.
  unfold Timeline, keyFrameSources, fallbackSources.
  destruct collision as [t1 t2 fc lo po mi md df cf sv kfs]; simpl.
  destruct kfs as [[[a |] [c |] [p |] [s |]] |];
    destruct fc, po, lo; reflexivity.
Qed.

Lemma Timeline_timestamps collision fps :
  Forall (fun e => timestamp e = inject_Z (frame e) / fpsOrDefault fps)
         (Timeline collision fps).
Proof.
  unfold Timeline.
  set (f := fpsOrDefault fps).
  match goal with
  | |- Forall _ (if (List.length ?evs =? 0)%nat then _ else _) =>
      assert (H : Forall (fun e => timestamp e = inject_Z (frame e) / f) evs)
  end.
  { destruct (CollisionResponse.key_frames collision); [| constructor].
    repeat apply pushPhase_timestamps. constructor. }
  destruct (_ =? _)%nat; [| exact H].
  repeat apply pushPhase_timestamps. exact H.
Qed.

(** C9: every event of the timeline carries the frame of a key frame,
    or of the fall-back fields when no key frame is present, and its
    timestamp is that frame divided by the fps argument; without an
    fps argument the divisor is 30. *)
Theorem C9_timestamp_is_frame_over_fps (collision : CollisionResponse.t) :
  (forall fps,
      Forall (fun e => timestamp e = inject_Z (frame e) / fps)
             (Timeline collision (Some fps))) /\
  Forall (fun e => timestamp e = inject_Z (frame e) / 30)
         (Timeline collision None) /\
  (forall fps,
      map frame (Timeline collision fps)
      = match keyFrameSources collision with
        | [] => fallbackSources collision
        | fs => fs
        end).
Proof.
  split; [| split].
  - intros fps. apply (Timeline_timestamps collision (Some fps)).
  - apply (Timeline_timestamps collision None).
  - intros fps. apply Timeline_frames.
Qed.

End TimelineFacts.

(** ** Deleting a project *)

Section DashboardFacts.

Import Dashboard.

Lemma filter_removedById projectId ps :
  removedById projectId ps
              (filter (fun p => negb (Project.id p =? projectId)%string) ps).
Proof.
  induction ps as [| p ps IH]; simpl; [constructor |].
  destruct (Project.id p =? projectId)%string eqn:E; simpl.
  - apply removed_drop; [apply String.eqb_eq, E | exact IH].
  - apply removed_keep; [apply String.eqb_neq, E | exact IH].
Qed.

(** The relation determines the list after the removal. *)
Lemma removedById_unique projectId before after after' :
  removedById projectId before after ->
  removedById projectId before after' ->
  after = after'.
Proof.
  intros H. revert after'.
  induction H as [| p before after Hp _ IH | p before after Hp _ IH];
    intros after' H'; inversion H'; subst; try congruence; auto.
  f_equal. auto.
Qed.

Lemma removedById_none_left projectId before after :
  removedById projectId before after ->
  Forall (fun p => Project.id p <> projectId) after.
Proof. induction 1; auto. Qed.

(** A delete that is confirmed and succeeds leaves the list of the
    render it was started from without the entries of the deleted id,
    the others unchanged and in their order, and no other list
    answers that description; nothing else of the state changes.
    When no other update has come in between, that list is the
    previous list.  When the delete call throws, or the user declines
    the confirmation, the projects are unchanged. *)
Theorem delete_removes_from_the_rendered_list
        (rendered : list Project.t) (projectId : string) (s : State) :
  removedById projectId rendered
              (projects (handleDelete rendered true Resolved projectId s)) /\
  removedById projectId (projects s)
              (projects (handleDelete (projects s) true Resolved projectId s)) /\
  Forall (fun p => Project.id p <> projectId)
         (projects (handleDelete rendered true Resolved projectId s)) /\
  alerts (handleDelete rendered true Resolved projectId s) = alerts s /\
  (forall message,
      projects (handleDelete rendered true (ThrewError message) projectId s)
      = projects s) /\
  projects (handleDelete rendered true ThrewOther projectId s) = projects s /\
  (forall outcome, handleDelete rendered false outcome projectId s = s) /\
  (forall after,
      removedById projectId rendered after ->
      after = projects (handleDelete rendered true Resolved projectId s)).
Proof.
  assert (H : forall l, removedById projectId l
                (projects (handleDelete l true Resolved projectId s)))
    by (intros l; apply filter_removedById).
  split; [apply H |]. split; [apply H |].
  split; [exact (removedById_none_left _ _ _ (H rendered)) |].
  repeat split.
  intros after Hafter. exact (removedById_unique _ _ _ _ Hafter (H rendered)).
Qed.

(** C10: the code does not keep the claim.  Two deletes are confirmed
    on the same rendered list of p-1 and p-2, the second before the
    first has come back, and both succeed.  After the first the list
    is p-2 alone; after the second it is p-1 alone: it is not the
    previous list without p-2, and p-1, which has been deleted, is
    listed again. *)
Theorem C10_overlapping_deletes_relist_a_deleted_project :
  let a := sampleProject "p-1" "first" in
  let b := sampleProject "p-2" "second" in
  let s0 := mkState [a; b] false None [] in
  let s1 := handleDelete (projects s0) true Resolved "p-1" s0 in
  let s2 := handleDelete (projects s0) true Resolved "p-2" s1 in
  projects s1 = [b] /\
  projects s2 = [a] /\
  ~ removedById "p-2" (projects s1) (projects s2).
Proof.
  intros a b s0 s1 s2.
  split; [reflexivity |]. split; [reflexivity |].
  intros H.
  assert (Hright : removedById "p-2" (projects s1) []).
  { apply removed_drop; [reflexivity | apply removed_nil]. }
  pose proof (removedById_unique _ _ _ _ H Hright) as E.
  discriminate E.
Qed.

End DashboardFacts.

Lemma delete_witness :
  let a := Dashboard.sampleProject "p-1" "first" in
  let b := Dashboard.sampleProject "p-2" "second" in
  let c := Dashboard.sampleProject "p-3" "third" in
  let s := Dashboard.mkState [a; b; c] false None [] in
  Dashboard.removedById "p-2" (Dashboard.projects s) [a; c] /\
  [a; c] = Dashboard.projects
             (Dashboard.handleDelete (Dashboard.projects s) true Dashboard.Resolved "p-2" s).
Proof.
  intros a b c s.
  assert (H : Dashboard.removedById "p-2" (Dashboard.projects s) [a; c]).
  { apply Dashboard.removed_keep; [discriminate |].
    apply Dashboard.removed_drop; [reflexivity |].
    apply Dashboard.removed_keep; [discriminate |].
    apply Dashboard.removed_nil. }
  split; [exact H |].
  destruct (delete_removes_from_the_rendered_list (Dashboard.projects s) "p-2" s)
    as (_ & _ & _ & _ & _ & _ & _ & Honly).
  apply Honly. exact H.
Defined.

(** ** Intersection over union *)

Section IouFacts.
Import Core.













End IouFacts.


(** The specification's scenario: overlap 50 by 60 over a union of
    13000, and overlapping at the threshold 0.15. *)
Example iou_of_scenario :
  Core.iou Core.scenarioBoxA Core.scenarioBoxB == 3000 # 13000 /\
  Qle_bool 0.15 (Core.iou Core.scenarioBoxA Core.scenarioBoxB) = true.
Proof. split; reflexivity. Qed.

(** The scenario again: overlap sustained on frames 49 to 60 gives one
    collision, from frame 49 to frame 60, 12 frames long. *)
Example detect_scenario :
  map (fun ev => (Core.first_contact_frame ev, Core.last_overlap_frame ev,
                  Core.duration_frames ev))
      (Core.detect Core.scenarioConfig 7 14 Core.scenarioSeries)
  = [(49%Z, 60%Z, 12%Z)].
Proof. vm_compute. reflexivity. Qed.

(** ** Severity *)

Section SeverityFacts.

Import Core.

Lemma classify_monotone p d x y :
  x <= y -> (rank (classify p x d) <= rank (classify p y d))%nat.
Proof.
  intros Hxy. unfold classify.
  destruct (Qle_bool (severe_iou p d) x) eqn:Sx.
  - apply Qle_bool_iff in Sx.
    assert (Sy : Qle_bool (severe_iou p d) y = true)
      by (apply Qle_bool_iff; lra).
    rewrite Sy. apply le_n.
  - destruct (Qle_bool (moderate_iou p d) x) eqn:Mx.
    + apply Qle_bool_iff in Mx.
      assert (My : Qle_bool (moderate_iou p d) y = true)
        by (apply Qle_bool_iff; lra).
      rewrite My. destruct (Qle_bool (severe_iou p d) y); simpl; lia.
    + simpl. lia.
Qed.

(** Equal rationals, whatever their fractions, get the same label. *)
Lemma classify_respects_Qeq p d x y : x == y -> classify p x d = classify p y d.
Proof.
  intros Hxy.
  assert (H1 : (rank (classify p x d) <= rank (classify p y d))%nat)
    by (apply classify_monotone; lra).
  assert (H2 : (rank (classify p y d) <= rank (classify p x d))%nat)
    by (apply classify_monotone; lra).
  destruct (classify p x d), (classify p y d); simpl in *; try reflexivity; lia.
Qed.

(** C6: for a fixed duration the classification gives every [max_iou]
    exactly one of the labels minor, moderate and severe, the same
    for equal values, and a larger [max_iou] never gets a lower
    label. *)
Theorem C6_severity_total_and_monotone
        (p : SeverityPolicy) (duration_frames : Z) (x y : Q) :
  (exists! l, classify p x duration_frames = l /\
              (l = minor \/ l = moderate \/ l = severe)) /\
  (x == y -> classify p x duration_frames = classify p y duration_frames) /\
  (x <= y ->
   (rank (classify p x duration_frames)
    <= rank (classify p y duration_frames))%nat).
Proof.
  split; [| split; [apply classify_respects_Qeq | apply classify_monotone]].
  exists (classify p x duration_frames). split.
  - split; [reflexivity |]. destruct (classify p x duration_frames); auto.
  - intros l [E _]. exact E.
Qed.

End SeverityFacts.

Lemma C6_severity_total_and_monotone_witness :
  (0.2 <= 0.45 /\
   (Core.rank (Core.classify Core.scenarioPolicy 0.2 12)
    <= Core.rank (Core.classify Core.scenarioPolicy 0.45 12))%nat) /\
  (0.5 == 1 # 2 /\
   Core.classify Core.scenarioPolicy 0.5 12
   = Core.classify Core.scenarioPolicy (1 # 2) 12).
Proof.
  assert (Hle : 0.2 <= 0.45) by discriminate.
  assert (Heq : 0.5 == 1 # 2) by reflexivity.
  split; (split; [assumption |]).
  - apply (C6_severity_total_and_monotone Core.scenarioPolicy 12 0.2 0.45). exact Hle.
  - apply (C6_severity_total_and_monotone Core.scenarioPolicy 12 0.5 (1 # 2)).
    exact Heq.
Defined.

(** ** The key frames of a collision *)

Section DetectorFacts.

Import Core.

Lemma in_frame_order_app l1 l2 :
  in_frame_order (l1 ++ l2) ->
  in_frame_order l1 /\ in_frame_order l2 /\
  (forall x y, In x l1 -> In y l2 -> (frame x < frame y)%Z).
Proof.
  unfold in_frame_order. induction l1 as [| f l1 IH]; simpl; intros H.
  - repeat split; [constructor | exact H | intros x y []].
  - inversion H as [| ? ? Hs Hf]; subst.
    destruct (IH Hs) as (H1 & H2 & H12).
    apply Forall_app in Hf. destruct Hf as [Hf1 Hf2].
    repeat split; [constructor; assumption | exact H2 |].
    intros x y [<- | Hx] Hy; [| auto].
    rewrite Forall_forall in Hf2. auto.
Qed.

Lemma frames_increasing_sound l :
  frames_increasing l = true -> in_frame_order l.
Proof.
  unfold in_frame_order. induction l as [| f l IH]; simpl; intros H; [constructor |].
  apply andb_true_iff in H. destruct H as [Hf Hl].
  constructor; [apply IH, Hl |].
  rewrite forallb_forall in Hf. apply Forall_forall. intros g Hg.
  apply Z.ltb_lt, Hf, Hg.
Qed.

Lemma close_covers past cur_rev r :
  In r (close past cur_rev) ->
  (rev (preceding r) ++ run_frames r = rev past ++ rev cur_rev)%list.
Proof.
  unfold close. destruct (rev cur_rev) as [| f fs]; simpl; [intros [] |].
  intros [<- | []]. reflexivity.
Qed.

(** A run and the frames before it make up a prefix of the series. *)
Lemma runs_from_covers cfg l :
  forall past cur_rev r,
    In r (runs_from cfg past cur_rev l) ->
    exists suffix,
      (rev (preceding r) ++ run_frames r ++ suffix
       = rev past ++ rev cur_rev ++ l)%list.
Proof.
  induction l as [| f l IH]; intros past cur_rev r Hr; cbn [runs_from] in Hr.
  - exists []. rewrite !app_nil_r. apply close_covers, Hr.
  - destruct (overlapping cfg f).
    + destruct (IH _ _ _ Hr) as [suffix E]. exists suffix. rewrite E.
      cbn [rev]. rewrite <- !app_assoc. reflexivity.
    + apply in_app_or in Hr. destruct Hr as [Hr | Hr].
      * exists (f :: l). rewrite app_assoc, (close_covers _ _ _ Hr).
        rewrite <- app_assoc. reflexivity.
      * destruct (IH _ _ _ Hr) as [suffix E]. exists suffix. rewrite E.
        cbn [rev]. rewrite rev_app_distr, <- !app_assoc. reflexivity.
Qed.

Lemma runs_in_frame_order cfg series r :
  in_frame_order series -> In r (runs cfg series) ->
  in_frame_order (rev (preceding r) ++ run_frames r).
Proof.
  intros Hs Hr. destruct (runs_from_covers _ _ _ _ _ Hr) as [suffix E].
  change (rev [] ++ rev [] ++ series)%list with series in E.
  rewrite <- E, app_assoc in Hs.
  apply in_frame_order_app in Hs. apply Hs.
Qed.

(** The peak is a frame of the run, followed by [snd (peak_of r)]. *)
Lemma peak_split_decomposes l :
  forall best after_best pre mid whole,
    whole = (pre ++ best :: after_best)%list ->
    after_best = (mid ++ l)%list ->
    exists pre',
      whole = (pre' ++ fst (peak_split best after_best l)
                    :: snd (peak_split best after_best l))%list.
Proof.
  induction l as [| f l IH]; simpl; intros best after_best pre mid whole Hw Ha.
  - exists pre. exact Hw.
  - destruct (Qlt_bool (frame_iou best) (frame_iou f)).
    + apply (IH f l (pre ++ best :: mid)%list []); [| reflexivity].
      rewrite Hw, Ha, <- app_assoc. reflexivity.
    + apply (IH best after_best pre (mid ++ [f])%list); [exact Hw |].
      rewrite Ha, <- app_assoc. reflexivity.
Qed.

Lemma peak_of_decomposes r :
  exists pre,
    run_frames r = (pre ++ fst (peak_of r) :: snd (peak_of r))%list.
Proof.
  apply (peak_split_decomposes (rest r) (first r) (rest r) [] []); reflexivity.
Qed.

Lemma last_after_cons (l : list PairFrame) f d : last (f :: l) d = last l f.
Proof.
  revert f d. induction l as [| g l IH]; intros f d; [reflexivity |].
  change (last (f :: g :: l) d) with (last (g :: l) d).
  rewrite (IH g d), (IH g f). reflexivity.
Qed.

Lemma first_is_earliest f l x :
  in_frame_order (f :: l) -> In x (f :: l) -> (frame f <= frame x)%Z.
Proof.
  intros H Hx. inversion H as [| ? ? _ Hf]; subst.
  destruct Hx as [<- | Hx]; [lia |].
  rewrite Forall_forall in Hf. specialize (Hf x Hx). lia.
Qed.

Lemma last_is_latest l :
  forall f x, in_frame_order (f :: l) -> In x (f :: l) ->
              (frame x <= frame (last l f))%Z.
Proof.
  induction l as [| g l IH]; intros f x H Hx.
  - destruct Hx as [<- | []]. simpl. lia.
  - rewrite last_after_cons. inversion H as [| ? ? Hs Hf]; subst.
    destruct Hx as [<- | Hx]; [| apply IH; assumption].
    inversion Hf as [| ? ? Hfg _]; subst.
    specialize (IH g g Hs (or_introl eq_refl)). lia.
Qed.

Lemma approach_scan_from_window w :
  forall d found a,
    approach_scan d w found = Some a ->
    found = Some a \/ exists f, In f w /\ frame f = a.
Proof.
  induction w as [| g w IH]; simpl; intros d found a H; [left; exact H |].
  destruct (Qlt_bool d (center_distance g)); [| left; exact H].
  destruct (IH _ _ _ H) as [E | (f & Hf & E)].
  - right. exists g. split; [left; reflexivity | congruence].
  - right. exists f. split; [right; exact Hf | exact E].
Qed.

Lemma in_window n (w : list PairFrame) f : In f (firstn n w) -> In f w.
Proof.
  intros H. rewrite <- (firstn_skipn n w). apply in_or_app. left. exact H.
Qed.

Lemma key_frames_of_ordered cfg r :
  in_frame_order (rev (preceding r) ++ run_frames r) ->
  key_frames_ordered (key_frames_of cfg r).
Proof.
  intros H. apply in_frame_order_app in H. destruct H as (_ & Hrun & Hbefore).
  destruct (peak_of_decomposes r) as [pre Hpk].
  assert (Hpin : In (fst (peak_of r)) (run_frames r)).
  { rewrite Hpk. apply in_or_app. right. left. reflexivity. }
  unfold key_frames_ordered, key_frames_of. simpl.
  destruct (approach_of cfg r) as [a |] eqn:Ea; [| exact I].
  split; [| split].
  - unfold approach_of in Ea. apply approach_scan_from_window in Ea.
    destruct Ea as [Ea | (f & Hf & <-)]; [discriminate Ea |].
    apply in_window in Hf. apply in_rev in Hf.
    specialize (Hbefore f (first r) Hf (or_introl eq_refl)). lia.
  - apply (first_is_earliest _ (rest r)); assumption.
  - unfold separation_of.
    destruct (find _ (snd (peak_of r))) as [f |] eqn:Ef.
    + apply find_some in Ef. destruct Ef as [Hf _].
      unfold run_frames in Hpk. fold (run_frames r) in Hpk.
      rewrite Hpk in Hrun. apply in_frame_order_app in Hrun.
      destruct Hrun as (_ & Hsuf & _).
      inversion Hsuf as [| ? ? _ Hall]; subst.
      rewrite Forall_forall in Hall. specialize (Hall f Hf). lia.
    + apply (last_is_latest (rest r) (first r)); assumption.
Qed.

Lemma detect_key_frames_ordered cfg t1 t2 series ev :
  in_frame_order series -> In ev (detect cfg t1 t2 series) ->
  key_frames_ordered (key_frames ev).
Proof.
  intros Hs Hev. unfold detect in Hev. apply in_map_iff in Hev.
  destruct Hev as (r & <- & Hr). apply filter_In in Hr. destruct Hr as [Hr _].
  simpl. apply key_frames_of_ordered. eapply runs_in_frame_order; eassumption.
Qed.

End DetectorFacts.

Section TimelineOrder.

Import TimelineView.

Lemma sorted_four {A} (R : A -> A -> Prop) (a b c d : A) :
  (forall x y z, R x y -> R y z -> R x z) ->
  (StronglySorted R [a; b; c; d] <-> R a b /\ R b c /\ R c d).
Proof.
  intros Htrans. split.
  - intros H. inversion H as [| ? ? H1 F1]; subst.
    inversion H1 as [| ? ? H2 F2]; subst.
    inversion H2 as [| ? ? _ F3]; subst.
    inversion F1; subst. inversion F2; subst. inversion F3; subst. auto.
  - intros (Hab & Hbc & Hcd).
    assert (Hac : R a c) by eauto. assert (Hbd : R b d) by eauto.
    assert (Had : R a d) by eauto.
    repeat constructor; assumption.
Qed.

Lemma timestamp_le_iff (fps : Q) (m n : Z) :
  0 < fps -> (inject_Z m / fps <= inject_Z n / fps <-> (m <= n)%Z).
Proof.
  intros Hfps. unfold Qdiv.
  rewrite (Qmult_le_r _ _ (/ fps)) by (apply Qinv_lt_0_compat; exact Hfps).
  rewrite <- Zle_Qle. reflexivity.
Qed.

(** With the four key frames present the component builds the four
    events in the fixed order, and they are in frame order, and in
    time order, exactly when the key frames are. *)
Lemma Timeline_four_key_frames collision kf a c p s fps :
  CollisionResponse.key_frames collision = Some kf ->
  KeyFrames.approach kf = Some a ->
  KeyFrames.contact kf = Some c ->
  KeyFrames.peak kf = Some p ->
  KeyFrames.separation kf = Some s ->
  map phase (Timeline collision fps) = ["approach"; "contact"; "peak"; "separation"] /\
  map frame (Timeline collision fps) = [a; c; p; s] /\
  ((a <= c /\ c <= p /\ p <= s)%Z <->
   StronglySorted Z.le (map frame (Timeline collision fps))) /\
  (0 < fpsOrDefault fps ->
   ((a <= c /\ c <= p /\ p <= s)%Z <->
    StronglySorted Qle (map timestamp (Timeline collision fps)))).
Proof.
  intros Hkf Ha Hc Hp Hs. unfold Timeline. rewrite Hkf, Ha, Hc, Hp, Hs. simpl.
  split; [reflexivity |]. split; [reflexivity |]. split.
  - rewrite (sorted_four Z.le) by (intros; lia). reflexivity.
  - intros Hfps. rewrite (sorted_four Qle) by (intros x y z; apply Qle_trans).
    rewrite !timestamp_le_iff by exact Hfps. reflexivity.
Qed.

(** C4: every collision event the detector produces from a series in
    frame order has its key frames, when all four are present, in the
    order approach, contact, peak, separation; and for a collision
    with the four key frames the timeline builds the four events in
    that fixed order, so that they are in non-decreasing frame order,
    and for a positive fps in non-decreasing time order, exactly when
    the key frames are in order. *)
Theorem C4_key_frames_in_order :
  (forall cfg t1 t2 series ev,
      Core.in_frame_order series ->
      In ev (Core.detect cfg t1 t2 series) ->
      Core.key_frames_ordered (Core.key_frames ev)) /\
  (forall collision kf a c p s fps,
      CollisionResponse.key_frames collision = Some kf ->
      KeyFrames.approach kf = Some a ->
      KeyFrames.contact kf = Some c ->
      KeyFrames.peak kf = Some p ->
      KeyFrames.separation kf = Some s ->
      map phase (Timeline collision fps)
      = ["approach"; "contact"; "peak"; "separation"] /\
      map frame (Timeline collision fps) = [a; c; p; s] /\
      ((a <= c /\ c <= p /\ p <= s)%Z <->
       StronglySorted Z.le (map frame (Timeline collision fps))) /\
      (0 < fpsOrDefault fps ->
       ((a <= c /\ c <= p /\ p <= s)%Z <->
        StronglySorted Qle (map timestamp (Timeline collision fps))))).
Proof.
  split.
  - apply detect_key_frames_ordered.
  - apply Timeline_four_key_frames.
Qed.

End TimelineOrder.

Lemma C4_key_frames_in_order_witness :
  Core.in_frame_order Core.scenarioSeries /\
  (exists ev,
      In ev (Core.detect Core.scenarioConfig 7 14 Core.scenarioSeries) /\
      Core.key_frames ev
      = KeyFrames.mk (Some 40%Z) (Some 49%Z) (Some 52%Z) (Some 60%Z) /\
      Core.key_frames_ordered (Core.key_frames ev)) /\
  0 < TimelineView.fpsOrDefault None /\
  StronglySorted Qle
    (map TimelineView.timestamp
         (TimelineView.Timeline TimelineView.guideCollision None)).
Proof.
  destruct C4_key_frames_in_order as [Hdetect Htimeline].
  assert (Hs : Core.in_frame_order Core.scenarioSeries)
    by (apply frames_increasing_sound; vm_compute; reflexivity).
  assert (Hfps : 0 < TimelineView.fpsOrDefault None) by reflexivity.
  split; [exact Hs |]. split; [| split; [exact Hfps |]].
  - assert (E : map Core.key_frames
                    (Core.detect Core.scenarioConfig 7 14 Core.scenarioSeries)
                = [KeyFrames.mk (Some 40%Z) (Some 49%Z) (Some 52%Z) (Some 60%Z)])
      by (vm_compute; reflexivity).
    assert (Hone : forall l kf,
               map Core.key_frames l = [kf] ->
               exists ev, In ev l /\ Core.key_frames ev = kf).
    { intros [| x l] kf Hm; [discriminate Hm |].
      exists x. split; [left; reflexivity |]. injection Hm as Hx _. exact Hx. }
    destruct (Hone _ _ E) as (ev & Hin & Hkf).
    exists ev. split; [exact Hin |]. split; [exact Hkf |].
    exact (Hdetect _ _ _ _ _ Hs Hin).
  - apply (Htimeline TimelineView.guideCollision
                     (KeyFrames.mk (Some 40%Z) (Some 55%Z) (Some 65%Z) (Some 75%Z))
                     40%Z 55%Z 65%Z 75%Z None
                     eq_refl eq_refl eq_refl eq_refl eq_refl);
      [exact Hfps | lia].
Defined.

(* ================================================================== *)
(** * Further properties of the front end *)
(* ================================================================== *)

(** ** The calibration component: editing the points *)

Section CalibrationEditing.

Import Calibration.

Lemma validPoints_setPoints ps s : validPoints (setPoints ps s) = filter hasMapCoordinates ps.
Proof. reflexivity. Qed.

Lemma click_keeps_validPoints imageRef now e s :
  validPoints (handleImageClick imageRef now e s) = validPoints s.
Proof.
  destruct imageRef as [rect |]; [| reflexivity].
  unfold handleImageClick. rewrite validPoints_setPoints.
  rewrite filter_app. simpl. apply app_nil_r.
Qed.

(** X1: A click on the image adds one point at the end, without map
    coordinates and numbered by the count of points before it; it
    leaves the valid points, and with them the verdict of
    [handleSave], as they were.  Without a mounted image it does
    nothing. *)
Theorem click_adds_one_unmapped_point imageRef now e s :
  validPoints (handleImageClick imageRef now e s) = validPoints s /\
  error (handleSave (handleImageClick imageRef now e s)) = error (handleSave s) /\
  match imageRef with
  | None => handleImageClick imageRef now e s = s
  | Some _ =>
      exists p,
        points (handleImageClick imageRef now e s) = (points s ++ [p])%list /\
        hasMapCoordinates p = false /\
        id p = "point-" ++ JS.show now /\
        orderIdx p = Z.of_nat (List.length (points s))
  end.
Proof.
  assert (Hv := click_keeps_validPoints imageRef now e s).
  split; [exact Hv |]. split.
  - unfold handleSave. rewrite Hv.
    destruct (_ <? _)%nat; reflexivity.
  - destruct imageRef as [rect |]; [| reflexivity].
    eexists. split; [reflexivity |]. repeat split.
Qed.

Lemma filter_length_lt {A} (f : A -> bool) (l : list A) (x : A) :
  In x l -> f x = false -> (List.length (filter f l) < List.length l)%nat.
Proof.
  induction l as [| y l IH]; simpl; [intros [] |].
  intros [-> | Hx] Hf.
  - rewrite Hf. pose proof (filter_length_le f l). lia.
  - specialize (IH Hx Hf). destruct (f y); simpl; lia.
Qed.

Lemma filter_all {A} (f : A -> bool) (l : list A) :
  (forall x, In x l -> f x = true) -> filter f l = l.
Proof.
  induction l as [| y l IH]; simpl; intros H; [reflexivity |].
  rewrite (H y (or_introl eq_refl)). f_equal. apply IH. auto.
Qed.

Lemma filter_idem {A} (f : A -> bool) (l : list A) : filter f (filter f l) = filter f l.
Proof.
  apply filter_all. intros x Hx. apply filter_In in Hx. apply Hx.
Qed.

(** X2: Removing a point removes every point of that id and no other:
    the others stay, as they were and in their order; the list gets
    shorter exactly when the id was there; removing again changes
    nothing. *)
Theorem remove_point_removes_that_id pointId s :
  Forall (fun p => id p <> pointId) (points (handleRemovePoint pointId s)) /\
  (forall p, In p (points s) -> id p <> pointId ->
             In p (points (handleRemovePoint pointId s))) /\
  ((exists p, In p (points s) /\ id p = pointId) <->
   (List.length (points (handleRemovePoint pointId s)) < List.length (points s))%nat) /\
  ((forall p, In p (points s) -> id p <> pointId) -> handleRemovePoint pointId s = s) /\
  handleRemovePoint pointId (handleRemovePoint pointId s) = handleRemovePoint pointId s.
Proof.
  unfold handleRemovePoint. simpl. split; [| split; [| split; [| split]]].
  - apply Forall_forall. intros p Hp. apply filter_In in Hp. destruct Hp as [_ Hp].
    apply negb_true_iff, String.eqb_neq in Hp. exact Hp.
  - intros p Hp Hid. apply filter_In. split; [exact Hp |].
    apply negb_true_iff, String.eqb_neq. exact Hid.
  - split.
    + intros (p & Hp & Hid). apply (filter_length_lt _ _ p Hp).
      apply negb_false_iff, String.eqb_eq. exact Hid.
    + intros Hlt.
      destruct (existsb (fun p => (id p =? pointId)%string) (points s)) eqn:E.
      * apply existsb_exists in E. destruct E as (p & Hp & Hid).
        exists p. split; [exact Hp | apply String.eqb_eq, Hid].
      * rewrite filter_all in Hlt; [lia |].
        intros p Hp. apply negb_true_iff.
        destruct (id p =? pointId)%string eqn:Ep; [| reflexivity].
        assert (Ht : existsb (fun p => (id p =? pointId)%string) (points s) = true)
          by (apply existsb_exists; exists p; auto).
        congruence.
  - intros H. rewrite filter_all.
    + destruct s; reflexivity.
    + intros p Hp. apply negb_true_iff, String.eqb_neq. auto.
  - unfold setPoints. simpl. rewrite filter_idem. reflexivity.
Qed.


Lemma filter_map_length_le {A} (f : A -> bool) (g : A -> A) (l : list A) :
  (forall x, f x = true -> f (g x) = true) ->
  (List.length (filter f l) <= List.length (filter f (map g l)))%nat.
Proof.
  intros H. induction l as [| x l IH]; simpl; [lia |].
  destruct (f x) eqn:E.
  - rewrite (H x E). simpl. lia.
  - destruct (f (g x)); simpl; lia.
Qed.

Lemma coordinates_change_keeps_valid pointId lat lng s :
  (List.length (validPoints s)
   <= List.length (validPoints (handleMapCoordinatesChange pointId lat lng s)))%nat.
Proof.
  unfold handleMapCoordinatesChange. rewrite validPoints_setPoints.
  apply filter_map_length_le. intros p Hp.
  destruct (id p =? pointId)%string; [reflexivity | exact Hp].
Qed.

(** X3: Only a removal can take a valid point away: after any other
    event at least as many points carry both map coordinates as
    before. *)
Theorem valid_points_only_lost_by_removal s ev :
  (forall idx, ev <> RemoveClick idx) ->
  (List.length (validPoints s) <= List.length (validPoints (step s ev)))%nat.
Proof.
  intros Hev. destruct ev as [imageRef now e | idx parsed | idx parsed | idx | |]; simpl.
  - rewrite click_keeps_validPoints. lia.
  - unfold onPoint. destruct (nth_error _ _); [| lia].
    apply coordinates_change_keeps_valid.
  - unfold onPoint. destruct (nth_error _ _); [| lia].
    apply coordinates_change_keeps_valid.
  - exfalso. exact (Hev idx eq_refl).
  - destruct (saveDisabled s); [lia |].
    unfold validPoints. unfold handleSave.
    destruct (_ <? _)%nat; apply le_n.
  - destruct (solveDisabled s); apply le_n.
Qed.

(** X4: Typing into one of the two inputs of a rendered point gives
    every point of that id both coordinates: the typed one, with 0
    for an empty or unparsable entry, and the other as the rendered
    point had it, with 0 if it had none.  The point is then valid,
    and the number of points is unchanged. *)
Theorem input_gives_both_coordinates s idx parsed p :
  nth_error (points s) idx = Some p ->
  (forall q, In q (points (step s (LatitudeInput idx parsed))) ->
             id q = id p ->
             mapLat q = Some (JS.or_zero parsed) /\
             mapLng q = Some (JS.or_zero (mapLng p)) /\
             hasMapCoordinates q = true) /\
  (forall q, In q (points (step s (LongitudeInput idx parsed))) ->
             id q = id p ->
             mapLat q = Some (JS.or_zero (mapLat p)) /\
             mapLng q = Some (JS.or_zero parsed) /\
             hasMapCoordinates q = true) /\
  nth_error (points (step s (LatitudeInput idx parsed))) idx
  = Some (withMapCoordinates (JS.or_zero parsed) (JS.or_zero (mapLng p)) p) /\
  List.length (points (step s (LatitudeInput idx parsed))) = List.length (points s) /\
  JS.or_zero None = 0.
Proof.
  intros Hp. simpl. unfold onPoint. rewrite Hp.
  unfold latitudeOnChange, longitudeOnChange.
  rewrite !handleMapCoordinatesChange_points.
  split; [| split; [| split; [| split]]].
  - intros q Hq Hid. apply in_map_iff in Hq. destruct Hq as (r & <- & _).
    destruct (id r =? id p)%string eqn:E; [repeat split |].
    apply String.eqb_neq in E. contradiction.
  - intros q Hq Hid. apply in_map_iff in Hq. destruct Hq as (r & <- & _).
    destruct (id r =? id p)%string eqn:E; [repeat split |].
    apply String.eqb_neq in E. contradiction.
  - rewrite nth_error_map, Hp. simpl. rewrite String.eqb_refl. reflexivity.
  - apply length_map.
  - reflexivity.
Qed.

(** X5: In the component as it is, with its mock session, nothing the
    user does starts a solve: the Solve button is disabled in every
    state, no solve result is ever set, no save or solve is ever in
    progress, the only alert is the one of a successful save, the
    only error is the insufficient-points one, and the Save button is
    disabled exactly when fewer than four points are listed. *)
Theorem mock_component_never_solves projectId s :
  reachable projectId s ->
  solveDisabled s = true /\
  solveResult s = None /\
  saving s = false /\ solving s = false /\
  Forall (fun a => a = savedMessage) (alerts s) /\
  (error s = None \/ error s = Some insufficientPointsMessage) /\
  (saveDisabled s = true <-> (List.length (points s) < 4)%nat).
Proof.
  intros Hs.
  assert (Hsession := reachable_session _ _ Hs).
  assert (Hdis : solveDisabled s = true).
  { unfold solveDisabled. rewrite Hsession. apply orb_true_r. }
  assert (Hinv : solveResult s = None /\ saving s = false /\ solving s = false /\
                 Forall (fun a => a = savedMessage) (alerts s) /\
                 (error s = None \/ error s = Some insufficientPointsMessage)).
  { clear Hsession Hdis. induction Hs as [| s ev Hs IH].
    - repeat split; auto.
    - assert (Hd : solveDisabled s = true).
      { unfold solveDisabled. rewrite (reachable_session _ _ Hs). apply orb_true_r. }
      destruct IH as (Hr & Hsv & Hsl & Ha & He).
      destruct ev as [imageRef now e | idx parsed | idx parsed | idx | |]; simpl.
      + destruct imageRef; repeat split; assumption.
      + unfold onPoint. destruct (nth_error _ _); repeat split; assumption.
      + unfold onPoint. destruct (nth_error _ _); repeat split; assumption.
      + unfold onPoint. destruct (nth_error _ _); repeat split; assumption.
      + destruct (saveDisabled s); [repeat split; assumption |].
        unfold handleSave. destruct (_ <? _)%nat; simpl; repeat split; auto.
      + rewrite Hd. repeat split; assumption. }
  destruct Hinv as (Hr & Hsv & Hsl & Ha & He).
  repeat split; try assumption.
  - unfold saveDisabled. rewrite Hsv. simpl. apply Nat.ltb_lt.
  - unfold saveDisabled. rewrite Hsv. simpl. apply Nat.ltb_lt.
Qed.

End CalibrationEditing.

(** ** The timeline: which events are built *)

Section TimelineEvents.

Import TimelineView TimelineTable.

(** X6: The events of the timeline are, in this order, one for each
    present key frame among approach, contact, peak and separation,
    each under its fixed label; only when no key frame at all is
    present, they are one for each present field among
    [first_contact_frame] (as contact), [peak_overlap_frame] (as
    peak) and [last_overlap_frame] (as separation).  The choice does
    not depend on the fps. *)
Theorem timeline_events_listed collision fps :
  map shown (Timeline collision fps)
  = match present (keyFrameTable collision) with
    | [] => present (fallbackTable collision)
    | events => events
    end.
Proof.
  unfold Timeline, keyFrameTable, fallbackTable.
  destruct collision as [t1 t2 fc lo po mi md df cf sv kfs]; simpl.
  destruct kfs as [[[a |] [c |] [p |] [s |]] |];
    destruct fc, po, lo; reflexivity.
Qed.

(** X7: There are at most four events, and there is none exactly when no
    key frame and none of the three fall-back fields is present. *)
Theorem timeline_empty_iff_nothing_present collision fps :
  (List.length (Timeline collision fps) <= 4)%nat /\
  (Timeline collision fps = [] <->
   keyFrameSources collision = [] /\ fallbackSources collision = []).
Proof.
  assert (Hf := Timeline_frames collision fps).
  split.
  - rewrite <- (length_map frame), Hf.
    unfold keyFrameSources, fallbackSources.
    destruct collision as [t1 t2 fc lo po mi md df cf sv kfs]; simpl.
    destruct kfs as [[[a |] [c |] [p |] [s |]] |];
      destruct fc, po, lo; simpl; lia.
  - split.
    + intros E. rewrite E in Hf. simpl in Hf.
      destruct (keyFrameSources collision); [split; congruence | discriminate Hf].
    + intros [Hk Hb]. rewrite Hk, Hb in Hf.
      destruct (Timeline collision fps); [reflexivity | discriminate Hf].
Qed.

End TimelineEvents.

(** ** The dashboard: deleting more than once *)

Section DashboardDeletes.

Import Dashboard.

Lemma filter_comm {A} (f g : A -> bool) (l : list A) :
  filter f (filter g l) = filter g (filter f l).
Proof.
  induction l as [| x l IH]; simpl; [reflexivity |].
  destruct (f x) eqn:Ef, (g x) eqn:Eg; simpl; rewrite ?Ef, ?Eg, IH; reflexivity.
Qed.

(** X8: Deletes that are each started from a render of the current
    list, one after the other's re-render, compose: deleting the same
    project twice is deleting it once, deletes of two projects can be
    done in either order, a delete of an id that is not listed changes
    nothing, and the list gets shorter when the id was listed. *)
Theorem deletes_compose (p q : string) (s : State) :
  let delete id st := handleDelete (projects st) true Resolved id st in
  delete p (delete p s) = delete p s /\
  delete p (delete q s) = delete q (delete p s) /\
  ((forall x, In x (projects s) -> Project.id x <> p) -> delete p s = s) /\
  ((exists x, In x (projects s) /\ Project.id x = p) ->
   (List.length (projects (delete p s)) < List.length (projects s))%nat).
Proof.
  intros delete. unfold delete, handleDelete, setProjects; simpl.
  split; [| split; [| split]].
  - rewrite filter_idem. reflexivity.
  - rewrite filter_comm. reflexivity.
  - intros H. rewrite filter_all.
    + destruct s; reflexivity.
    + intros x Hx. apply negb_true_iff, String.eqb_neq. auto.
  - intros (x & Hx & Hid). apply (filter_length_lt _ _ x Hx).
    apply negb_false_iff, String.eqb_eq. exact Hid.
Qed.

(** X9: A delete that resolves filters the list of the render it was
    started from.  Two deletes started from the same render, the
    second before the first has resolved, leave the list of that
    render without the second project only: the first project, though
    deleted, is listed again.  Started one after the other's render,
    they remove both. *)
Theorem overlapping_deletes_restore_the_first
        (rendered : list Project.t) (first second : string) (s : State) (x : Project.t) :
  In x rendered -> Project.id x = first -> first <> second ->
  In x (projects (DashboardAsync.resolveDelete rendered second
                    (DashboardAsync.resolveDelete rendered first s))) /\
  ~ In x (projects (DashboardAsync.resolveDelete rendered first s)) /\
  handleDelete rendered true Resolved first s
  = DashboardAsync.resolveDelete rendered first s /\
  handleDelete (projects s) true Resolved first s
  = DashboardAsync.resolveDelete (projects s) first s /\
  ~ In x (projects
            (handleDelete
               (projects (handleDelete (projects s) true Resolved first s))
               true Resolved second
               (handleDelete (projects s) true Resolved first s))).
Proof.
  intros Hx Hid Hne. unfold DashboardAsync.resolveDelete, handleDelete, setProjects; simpl.
  split; [| split; [| split; [| split]]].
  - apply filter_In. split; [exact Hx |].
    apply negb_true_iff, String.eqb_neq. congruence.
  - intros H. apply filter_In in H. destruct H as [_ H].
    apply negb_true_iff, String.eqb_neq in H. contradiction.
  - reflexivity.
  - reflexivity.
  - intros H. apply filter_In in H. destruct H as [H _].
    apply filter_In in H. destruct H as [_ H].
    apply negb_true_iff, String.eqb_neq in H. contradiction.
Qed.

End DashboardDeletes.

(** ** The token and the session of use *)

Section TokenFacts.

Import Browser Api Auth.

Lemma getItem_cons key k v (st : Storage) :
  getItem key ((k, v) :: st) = if (k =? key)%string then Some v else getItem key st.
Proof. reflexivity. Qed.

Lemma getItem_removeItem_same key st : getItem key (removeItem key st) = None.
Proof.
  induction st as [| [k v] st IH]; simpl; [reflexivity |].
  destruct (k =? key)%string eqn:E; simpl; [exact IH |].
  rewrite E. exact IH.
Qed.

Lemma getItem_removeItem_other key other st :
  other <> key -> getItem other (removeItem key st) = getItem other st.
Proof.
  intros Hne. induction st as [| [k v] st IH]; simpl; [reflexivity |].
  destruct (k =? key)%string eqn:E; simpl.
  - apply String.eqb_eq in E. subst k.
    apply String.eqb_neq in Hne. rewrite String.eqb_sym, Hne. exact IH.
  - rewrite IH. reflexivity.
Qed.

(** X10: In a browser the token that was set is the token that is got, a
    later one replacing an earlier one; after a removal there is
    none; and setting or removing the token leaves every other key of
    the storage as it was.  Where there is no window nothing is
    stored and no token is got. *)
Theorem token_round_trip (st : Storage) (token earlier other : string) :
  getAuthToken (setAuthToken token (Some st)) = Some token /\
  getAuthToken (setAuthToken token (setAuthToken earlier (Some st))) = Some token /\
  getAuthToken (removeAuthToken (setAuthToken token (Some st))) = None /\
  (other <> "auth_token" ->
   getItem other (setItem "auth_token" token st) = getItem other st /\
   getItem other (removeItem "auth_token" st) = getItem other st) /\
  setAuthToken token None = None /\
  getAuthToken (setAuthToken token None) = None.
Proof.
  split; [reflexivity |]. split; [reflexivity |].
  split; [| split; [| split; reflexivity]].
  - simpl. apply getItem_removeItem_same.
  - intros Hne. split.
    + unfold setItem. rewrite getItem_cons.
      assert (E : ("auth_token" =? other)%string = false)
        by (apply String.eqb_neq; congruence).
      rewrite E. apply getItem_removeItem_other. exact Hne.
    + apply getItem_removeItem_other. exact Hne.
Qed.

(** X11: A session of use.  After a login that succeeds with a non-empty
    token the navigation bar finds the user logged in and the
    dashboard loads without redirecting; after the logout that
    follows, the bar finds nobody logged in and the dashboard
    redirects to the login page, loads nothing and keeps showing that
    it is loading.  A login that fails stores nothing and pushes no
    route: a token stored before stays. *)
Theorem login_then_logout
        (st : Storage) (visited : list string) (response : LoginResponse)
        (load : Outcome (list Project.t)) (failed : Outcome LoginResponse) :
  access_token response <> "" ->
  (forall r, failed <> Resolved r) ->
  let w := mkWorld (Some st) visited in
  let w1 := fst (onSubmit (Resolved response) w) in
  let w2 := fst (handleLogout w1) in
  routes w1 = "/" :: visited /\
  checkAuth w1 = true /\
  fst (dashboardMount load w1 dashboardInitial) = w1 /\
  Dashboard.loading (snd (dashboardMount load w1 dashboardInitial)) = false /\
  checkAuth w2 = false /\
  dashboardMount load w2 dashboardInitial = (push "/login" w2, dashboardInitial) /\
  fst (onSubmit failed w) = w /\
  snd (onSubmit failed w) = Some (messageOr "Login failed. Please try again." failed).
Proof.
  intros Htoken Hfailed w w1 w2.
  assert (H1 : getAuthToken (window w1) = Some (access_token response)) by reflexivity.
  assert (Ht : truthy (Some (access_token response)) = true).
  { destruct (access_token response); [contradiction | reflexivity]. }
  assert (H2 : getAuthToken (window w2) = None).
  { unfold w2, w1; simpl. apply getItem_removeItem_same. }
  split; [reflexivity |]. split.
  { unfold checkAuth. rewrite H1. exact Ht. }
  split.
  { unfold dashboardMount. rewrite H1, Ht. simpl. destruct load; reflexivity. }
  split.
  { unfold dashboardMount. rewrite H1, Ht. simpl. destruct load; reflexivity. }
  split.
  { unfold checkAuth. rewrite H2. reflexivity. }
  split.
  { unfold dashboardMount. rewrite H2. reflexivity. }
  destruct failed as [r | message |]; [exfalso; exact (Hfailed r eq_refl) | |];
    split; reflexivity.
Qed.

End TokenFacts.

(** ** Requests *)

Section RequestFacts.

Import Browser Api.

Lemma objGet_objSet_same key value o : objGet key (objSet key value o) = Some value.
Proof.
  unfold objGet. induction o as [| [k v] o IH]; simpl.
  - rewrite String.eqb_refl. reflexivity.
  - destruct (k =? key)%string eqn:E; simpl.
    + rewrite String.eqb_refl. reflexivity.
    + rewrite E. exact IH.
Qed.

Lemma objGet_objSet_other key other value o :
  other <> key -> objGet other (objSet key value o) = objGet other o.
Proof.
  intros Hne. apply String.eqb_neq in Hne. rewrite String.eqb_sym in Hne.
  unfold objGet. induction o as [| [k v] o IH]; simpl.
  - rewrite Hne. reflexivity.
  - destruct (k =? key)%string eqn:E; simpl.
    + apply String.eqb_eq in E. subst k. rewrite Hne. reflexivity.
    + rewrite IH. reflexivity.
Qed.

Lemma getItem_absent key (o : Headers) :
  ~ In key (map fst o) -> getItem key o = None.
Proof.
  induction o as [| [k v] o IH]; simpl; [reflexivity |].
  intros H. destruct (k =? key)%string eqn:E.
  - apply String.eqb_eq in E. tauto.
  - apply IH. tauto.
Qed.

(** Spreading an object with one entry per key: its entries win. *)
Lemma objGet_spread key src :
  NoDup (map fst src) ->
  forall o,
    objGet key (spread src o)
    = match objGet key src with Some v => Some v | None => objGet key o end.
Proof.
  unfold spread, objGet.
  induction src as [| [k v] src IH]; simpl; intros Hnd o; [reflexivity |].
  inversion Hnd as [| ? ? Hk Hnd']; subst.
  rewrite (IH Hnd'). destruct (k =? key)%string eqn:E.
  - apply String.eqb_eq in E. subst k.
    rewrite (getItem_absent _ _ Hk). apply objGet_objSet_same.
  - destruct (getItem key src); [reflexivity |].
    apply objGet_objSet_other. apply String.eqb_neq. rewrite String.eqb_sym. exact E.
Qed.

(** X12: The headers of a request.  [Authorization] is the bearer token
    whenever a non-empty token is stored, whatever the caller passed
    under that key, and is the caller's otherwise.  [Content-Type] is
    never sent with a form-data body, whatever the caller passed; with
    any other body it is the caller's, or [application/json].  Every
    other header is the caller's. *)
Theorem request_headers apiBaseUrl token endpoint options :
  NoDup (map fst (callerHeaders options)) ->
  let sent := requestHeaders (apiRequest_fetch apiBaseUrl token endpoint options) in
  (forall t, token = Some t -> t <> "" ->
             objGet "Authorization" sent = Some ("Bearer " ++ t)) /\
  (truthy token = false ->
   objGet "Authorization" sent = objGet "Authorization" (callerHeaders options)) /\
  objGet "Content-Type" sent
  = match body options with
    | FormDataBody => None
    | _ => match objGet "Content-Type" (callerHeaders options) with
           | Some v => Some v
           | None => Some "application/json"
           end
    end /\
  (forall key, key <> "Authorization" -> key <> "Content-Type" ->
               objGet key sent = objGet key (callerHeaders options)).
Proof.
  intros Hnd sent. unfold sent, apiRequest_fetch. fold (callerHeaders options).
  cbn [requestHeaders].
  set (base := spread (callerHeaders options) [("Content-Type", "application/json")]).
  assert (Hbase : forall key,
             objGet key base
             = match objGet key (callerHeaders options) with
               | Some v => Some v
               | None => objGet key [("Content-Type", "application/json")]
               end)
    by (intros key; apply objGet_spread, Hnd).
  assert (Hct : "Content-Type" <> "Authorization") by discriminate.
  assert (Hac : "Authorization" <> "Content-Type") by discriminate.
  split; [| split; [| split]].
  - intros t -> Ht.
    assert (Etruthy : truthy (Some t) = true) by (destruct t; [contradiction | reflexivity]).
    rewrite Etruthy.
    destruct (body options); unfold objDelete, objGet;
      rewrite ?getItem_removeItem_other by exact Hac;
      apply objGet_objSet_same.
  - intros Hfalsy.
    assert (Hauth : objGet "Authorization" base
                    = objGet "Authorization" (callerHeaders options)).
    { rewrite Hbase. destruct (objGet "Authorization" (callerHeaders options)); reflexivity. }
    destruct token as [t |]; [rewrite Hfalsy |];
      (destruct (body options); unfold objDelete, objGet;
       rewrite ?getItem_removeItem_other by exact Hac; exact Hauth).
  - assert (Hcontent : forall hs,
               (hs = base \/ exists t, hs = objSet "Authorization" t base) ->
               objGet "Content-Type" hs
               = match objGet "Content-Type" (callerHeaders options) with
                 | Some v => Some v
                 | None => Some "application/json"
                 end).
    { intros hs [-> | [t ->]]; [| rewrite objGet_objSet_other by exact Hct];
        rewrite Hbase; destruct (objGet "Content-Type" (callerHeaders options));
        reflexivity. }
    destruct (body options); unfold objDelete;
      try (apply getItem_removeItem_same);
      apply Hcontent; destruct token as [t |]; try destruct (truthy (Some t)); eauto.
  - intros key Ha Hc.
    assert (Hkey : objGet key base = objGet key (callerHeaders options)).
    { rewrite Hbase. destruct (objGet key (callerHeaders options)); [reflexivity |].
      unfold objGet. rewrite getItem_cons.
      assert (E : ("Content-Type" =? key)%string = false)
        by (apply String.eqb_neq; congruence).
      rewrite E. reflexivity. }
    assert (Hany : forall hs,
               (hs = base \/ exists t, hs = objSet "Authorization" t base) ->
               objGet key hs = objGet key (callerHeaders options)).
    { intros hs [-> | [t ->]]; [| rewrite objGet_objSet_other by exact Ha]; exact Hkey. }
    destruct (body options); unfold objDelete, objGet;
      rewrite ?getItem_removeItem_other by exact Hc;
      apply Hany; destruct token as [t |]; try destruct (truthy (Some t)); eauto.
Qed.

Lemma failure_message_nonempty fallback r message :
  fallback <> "" -> failure fallback r = ErrorWith message -> message <> "".
Proof.
  intros Hf. unfold failure.
  destruct (json r) as [[| b | q | s | items | fields] |]; simpl;
    try (intros E; injection E as <-; exact Hf); try discriminate.
  - destruct (field "detail" fields) as [d |];
      [| intros E; injection E as <-; exact Hf].
    destruct (jsTruthy d) eqn:Ed; [| intros E; injection E as <-; exact Hf].
    destruct d; try discriminate.
    intros E; injection E as <-. destruct s; [discriminate Ed | discriminate].
  - destruct (statusText r) as [| c rest]; simpl;
      intros E; injection E as <-; [exact Hf | discriminate].
Qed.

(** X13: A response that is not ok never yields data: the request
    function throws.  With an object body whose [detail] is truthy it
    throws the error made from that [detail]: for a string, an error
    with that text, which is not empty; for any other truthy value (an
    array, an object, a number, [true]), the error made from the
    value itself.  With [detail] missing or falsy it throws its own
    fall-back text; for a body that is not JSON, the status text, or
    the fall-back text when the status text is empty.  An error that
    the function makes from a string never has an empty text.  A body
    that is [null] makes it throw a [TypeError] instead. *)
Theorem failed_response_throws (r : Response) (fallback : string) :
  ok r = false ->
  fallback <> "" ->
  (exists t, respond fallback r = Threw t) /\
  (forall message, respond fallback r = Threw (ErrorWith message) -> message <> "") /\
  (forall message, apiRequest_result r = Threw (ErrorWith message) -> message <> "") /\
  (forall fields s,
      json r = Some (JObject fields) -> field "detail" fields = Some (JString s) ->
      s <> "" -> respond fallback r = Threw (ErrorWith s)) /\
  (forall fields d,
      json r = Some (JObject fields) -> field "detail" fields = Some d ->
      jsTruthy d = true -> (forall s, d <> JString s) ->
      respond fallback r = Threw (ErrorOfValue d)) /\
  (forall fields d,
      json r = Some (JObject fields) -> field "detail" fields = Some d ->
      jsTruthy d = false -> respond fallback r = Threw (ErrorWith fallback)) /\
  (forall fields,
      json r = Some (JObject fields) -> field "detail" fields = None ->
      respond fallback r = Threw (ErrorWith fallback)) /\
  (json r = None ->
   respond fallback r
   = Threw (ErrorWith (if truthy (Some (statusText r)) then statusText r else fallback))) /\
  (json r = Some JNull -> respond fallback r = Threw TypeErrorThrown).
Proof.
  intros Hok Hf. unfold apiRequest_result, respond. rewrite Hok.
  split; [eexists; reflexivity |].
  split; [intros message E; injection E as E;
          exact (failure_message_nonempty _ _ _ Hf E) |].
  assert (Hapi : "API error: " ++ statusText r <> "") by (simpl; discriminate).
  split; [intros message E; injection E as E;
          exact (failure_message_nonempty _ _ _ Hapi E) |].
  split; [| split; [| split; [| split; [| split]]]].
  - intros fields s Hj Hd Hs. unfold failure. rewrite Hj, Hd.
    destruct s; [contradiction | reflexivity].
  - intros fields d Hj Hd Ht Hns. unfold failure. rewrite Hj, Hd, Ht.
    destruct d; try reflexivity. exfalso. exact (Hns s eq_refl).
  - intros fields d Hj Hd Ht. unfold failure. rewrite Hj, Hd, Ht. reflexivity.
  - intros fields Hj Hd. unfold failure. rewrite Hj, Hd. reflexivity.
  - intros Hj. unfold failure. rewrite Hj. simpl.
    destruct (statusText r); reflexivity.
  - intros Hj. unfold failure. rewrite Hj. reflexivity.
Qed.

Lemma queryParts_start_with_name numberToQuery params :
  Forall (fun part => part <> "") (queryParts numberToQuery params).
Proof.
  destruct params as [entries |]; simpl; [| constructor].
  induction entries as [| [k [v |]] entries IH]; simpl; auto.
  constructor; [| exact IH]. destruct k; discriminate.
Qed.

Lemma join_nonempty sep part parts : part <> "" -> join sep (part :: parts) <> "".
Proof.
  intros Hp. destruct part as [| c rest]; [contradiction |].
  destruct parts; simpl; discriminate.
Qed.

(** X14: The query of a collisions request holds one [name=value] for each
    parameter that is not [undefined], a value of 0 included, and
    nothing for the others; with no parameter to send there is no
    question mark.  The query of a summaries request leaves out a
    limit of 0 as it leaves out a missing limit. *)
Theorem queries_send_what_is_defined
        (numberToQuery : Q -> string) (projectId : string)
        (params : option (list (CollisionParam * option Q))) :
  (queryParts numberToQuery params = [] ->
   getProjectCollisions_endpoint numberToQuery projectId params
   = "/analysis/project/" ++ projectId ++ "/collisions") /\
  (queryParts numberToQuery params <> [] ->
   getProjectCollisions_endpoint numberToQuery projectId params
   = "/analysis/project/" ++ projectId ++ "/collisions" ++ "?"
     ++ join "&" (queryParts numberToQuery params)) /\
  (forall entries k v,
      params = Some entries -> In (k, Some v) entries ->
      In (paramName k ++ "=" ++ numberToQuery v) (queryParts numberToQuery params)) /\
  (forall entries,
      params = Some entries -> (forall kv, In kv entries -> snd kv = None) ->
      queryParts numberToQuery params = []) /\
  queryParts numberToQuery (Some [(iou_threshold, Some 0)])
  = ["iou_threshold=" ++ numberToQuery 0] /\
  getProjectSummaries_endpoint projectId (Some 0%Z)
  = getProjectSummaries_endpoint projectId None /\
  (forall n, n <> 0%Z ->
             getProjectSummaries_endpoint projectId (Some n)
             = "/kestra/project/" ++ projectId ++ "/summaries" ++ "?limit=" ++ JS.show n).
Proof.
  unfold getProjectCollisions_endpoint.
  split; [| split; [| split; [| split; [| split; [| split]]]]].
  - intros E. rewrite E. reflexivity.
  - intros Hne. pose proof (queryParts_start_with_name numberToQuery params) as Hall.
    destruct (queryParts numberToQuery params) as [| part parts]; [contradiction |].
    inversion Hall as [| ? ? Hpart _]; subst.
    pose proof (join_nonempty "&" part parts Hpart) as Hj.
    apply String.eqb_neq in Hj. rewrite Hj. reflexivity.
  - intros entries k v -> Hin. simpl. apply in_flat_map.
    exists (k, Some v). split; [exact Hin | left; reflexivity].
  - intros entries -> Hnone. simpl.
    induction entries as [| kv entries IH]; simpl; [reflexivity |].
    rewrite (Hnone kv (or_introl eq_refl)). simpl. apply IH.
    intros kv' Hkv'. apply Hnone. right. exact Hkv'.
  - reflexivity.
  - reflexivity.
  - intros n Hn. unfold getProjectSummaries_endpoint.
    apply Z.eqb_neq in Hn. rewrite Hn. reflexivity.
Qed.

End RequestFacts.

(** ** Uploading a video *)

Section UploadFacts.

Import Browser Upload.

(** X15: Choosing a file keeps a video selected: a file whose type does
    not start with [video/] is refused with an error and leaves the
    file chosen before as the selection, so the upload button is as
    it was; a video replaces the selection and clears the error; an
    empty choice changes nothing. *)
Theorem file_choice_keeps_a_video_selected
        (trim : string -> string) (files : option (list File)) (s : State) :
  (videoSelected s = true -> videoSelected (handleFileChange files s) = true) /\
  (forall file others,
      files = Some (file :: others) -> String.prefix "video/" (type file) = false ->
      videoFile (handleFileChange files s) = videoFile s /\
      error (handleFileChange files s) = Some "Please select a valid video file" /\
      uploadDisabled trim (handleFileChange files s) = uploadDisabled trim s) /\
  (forall file others,
      files = Some (file :: others) -> String.prefix "video/" (type file) = true ->
      videoFile (handleFileChange files s) = Some file /\
      error (handleFileChange files s) = None) /\
  (files = None \/ files = Some [] -> handleFileChange files s = s).
Proof.
  split; [| split; [| split]].
  - intros Hs. unfold handleFileChange.
    destruct files as [[| file others] |]; try exact Hs.
    destruct (String.prefix "video/" (type file)) eqn:E; simpl; [| exact Hs].
    unfold videoSelected. simpl. exact E.
  - intros file others -> E. unfold handleFileChange. rewrite E. repeat split.
  - intros file others -> E. unfold handleFileChange. rewrite E. repeat split.
  - intros [-> | ->]; reflexivity.
Qed.

Ltac split_in H :=
  simpl in H;
  repeat match type of H with
         | _ \/ _ => destruct H as [H | H]
         | False => destruct H
         end.

Ltac upload_cases trim s create upload :=
  unfold handleUpload, uploadTo, uploadDisabled, finish;
  destruct (videoFile s) as [file |];
  simpl;
  destruct (useExistingProject s);
  destruct (nonEmpty (selectedProjectId s));
  destruct (nonEmpty (trim (projectTitle s)));
  destruct create as [created | createMessage |];
  destruct upload as [uploaded | uploadMessage |];
  simpl.

(** X16: What an upload does.  Without a login it only sends the user to
    the login page, and without a selected file it does nothing.  It
    uploads the selected file and no other, to the selected project
    when an existing one is used and otherwise to the project it has
    just created; when the creation fails nothing is uploaded; and it
    opens the incident page only after an upload that succeeded.
    When the upload button is enabled the first thing it does is a
    request, so the missing-title error cannot come up, and when it
    is through it is no longer loading. *)
Theorem upload_decisions
        (trim : string -> string) (actuallyLoggedIn : bool)
        (create : Outcome Project.t) (upload : Outcome unit) (s : State) :
  let result := handleUpload trim actuallyLoggedIn create upload s in
  (actuallyLoggedIn = false -> result = (s, [Push "/login"])) /\
  (videoFile s = None -> actuallyLoggedIn = true -> result = (s, [])) /\
  (forall projectId file,
      In (UploadVideo projectId file) (snd result) ->
      videoFile s = Some file /\
      (projectId = selectedProjectId s \/ exists p, create = Resolved p /\ projectId = Project.id p)) /\
  ((forall p, create <> Resolved p) -> existsb isCreate (snd result) = true ->
   existsb isUpload (snd result) = false) /\
  (forall route, In (Push route) (snd result) -> route <> "/login" ->
                 exists u, upload = Resolved u) /\
  (actuallyLoggedIn = true -> uploadDisabled trim s = false ->
   isLoading (fst result) = false /\
   exists file,
     videoFile s = Some file /\
     hd_error (snd result)
     = Some (if useExistingProject s
             then UploadVideo (selectedProjectId s) file
             else CreateProject (projectTitle s)
                                (if nonEmpty (projectDescription s)
                                 then Some (projectDescription s) else None))).
Proof.
  intros result. unfold result. clear result.
  split; [intros ->; reflexivity |].
  split; [intros Hfile ->; unfold handleUpload; rewrite Hfile; reflexivity |].
  destruct actuallyLoggedIn.
  2: { split; [intros projectId file H; split_in H; discriminate H |].
       split; [discriminate |].
       split; [intros route H Hr; split_in H; injection H as <-; contradiction |].
       discriminate. }
  split; [| split; [| split]].
  - intros projectId f. upload_cases trim s create upload;
      intros H; split_in H; try discriminate H;
      injection H as <- <-; eauto.
  - intros Hcreate. upload_cases trim s create upload; try reflexivity; try discriminate;
      exfalso; exact (Hcreate created eq_refl).
  - intros route. upload_cases trim s create upload;
      intros H Hr; split_in H; try discriminate H; eauto.
  - intros _. destruct (isLoading s) eqn:Eloading;
      upload_cases trim s create upload; rewrite ?Eloading; try discriminate;
      intros _; (split; [reflexivity | eexists; split; reflexivity]).
Qed.

End UploadFacts.

(** ** The properties above, at work *)

Lemma remove_point_witness :
  let s := Calibration.init "project-1" in
  (exists p, In p (Calibration.points s) /\ Calibration.id p = "pair-2") /\
  (List.length (Calibration.points (Calibration.handleRemovePoint "pair-2" s))
   < List.length (Calibration.points s))%nat /\
  (forall p, In p (Calibration.points s) -> Calibration.id p <> "pair-9") /\
  Calibration.handleRemovePoint "pair-9" s = s.
Proof.
  intros s.
  assert (Hthere : exists p, In p (Calibration.points s) /\ Calibration.id p = "pair-2").
  { eexists. split; [right; left; reflexivity | reflexivity]. }
  assert (Hnot : forall p, In p (Calibration.points s) -> Calibration.id p <> "pair-9").
  { intros p Hp. simpl in Hp.
    destruct Hp as [<- | [<- | [<- | [<- | []]]]]; discriminate. }
  split; [exact Hthere |]. split; [| split; [exact Hnot |]].
  - destruct (remove_point_removes_that_id "pair-2" s) as (_ & _ & Hshorter & _).
    apply Hshorter. exact Hthere.
  - destruct (remove_point_removes_that_id "pair-9" s) as (_ & _ & _ & Hsame & _).
    apply Hsame. exact Hnot.
Defined.

Lemma valid_points_witness :
  let s := Calibration.init "project-1" in
  (forall idx, Calibration.LatitudeInput 0 None <> Calibration.RemoveClick idx) /\
  (List.length (Calibration.validPoints s)
   <= List.length (Calibration.validPoints
                     (Calibration.step s (Calibration.LatitudeInput 0 None))))%nat.
Proof.
  intros s.
  assert (H : forall idx, Calibration.LatitudeInput 0 None <> Calibration.RemoveClick idx)
    by discriminate.
  split; [exact H |].
  apply (valid_points_only_lost_by_removal s (Calibration.LatitudeInput 0 None) H).
Defined.

Lemma input_witness :
  let s := Calibration.run (Calibration.init "project-1") Calibration.fourUnmappedClicks in
  let p := Calibration.mkPoint "point-1" (10 / 100) (10 / 100) None None 0 in
  nth_error (Calibration.points s) 0 = Some p /\
  nth_error (Calibration.points (Calibration.step s (Calibration.LatitudeInput 0 (Some 37.7749)))) 0
  = Some (Calibration.withMapCoordinates 37.7749 0 p).
Proof.
  intros s p.
  assert (H : nth_error (Calibration.points s) 0 = Some p) by reflexivity.
  split; [exact H |].
  destruct (input_gives_both_coordinates s 0 (Some 37.7749) p H) as (_ & _ & Hnth & _).
  exact Hnth.
Defined.

Lemma mock_component_witness :
  let s := Calibration.run (Calibration.init "project-1") Calibration.fourUnmappedClicks in
  Calibration.reachable "project-1" s /\
  Calibration.solveDisabled s = true /\ Calibration.solveResult s = None.
Proof.
  intros s.
  assert (H : Calibration.reachable "project-1" s)
    by (apply reachable_run, Calibration.reach_init).
  split; [exact H |].
  destruct (mock_component_never_solves "project-1" s H) as (Hd & Hr & _).
  split; assumption.
Defined.

Lemma timeline_empty_witness :
  let nothing :=
    CollisionResponse.mk 1 7 None None None 0 0 0 [] "minor"
                         (Some (KeyFrames.mk None None None None)) in
  (TimelineView.keyFrameSources nothing = [] /\ TimelineView.fallbackSources nothing = []) /\
  TimelineView.Timeline nothing None = [].
Proof.
  intros nothing.
  assert (H : TimelineView.keyFrameSources nothing = []
              /\ TimelineView.fallbackSources nothing = []) by (split; reflexivity).
  split; [exact H |].
  destruct (timeline_empty_iff_nothing_present nothing None) as (_ & Hiff).
  apply Hiff. exact H.
Defined.

Lemma deletes_witness :
  let a := Dashboard.sampleProject "p-1" "first" in
  let b := Dashboard.sampleProject "p-2" "second" in
  let s := Dashboard.mkState [a; b] false None [] in
  (exists x, In x (Dashboard.projects s) /\ Project.id x = "p-2") /\
  (List.length (Dashboard.projects
                  (Dashboard.handleDelete (Dashboard.projects s) true
                                          Dashboard.Resolved "p-2" s))
   < List.length (Dashboard.projects s))%nat /\
  (forall x, In x (Dashboard.projects s) -> Project.id x <> "p-3") /\
  Dashboard.handleDelete (Dashboard.projects s) true Dashboard.Resolved "p-3" s = s.
Proof.
  intros a b s.
  assert (Hthere : exists x, In x (Dashboard.projects s) /\ Project.id x = "p-2").
  { exists b. split; [right; left; reflexivity | reflexivity]. }
  assert (Hnot : forall x, In x (Dashboard.projects s) -> Project.id x <> "p-3").
  { intros x Hx. simpl in Hx. destruct Hx as [<- | [<- | []]]; discriminate. }
  split; [exact Hthere |]. split; [| split; [exact Hnot |]].
  - destruct (deletes_compose "p-2" "p-2" s) as (_ & _ & _ & Hshorter).
    apply Hshorter. exact Hthere.
  - destruct (deletes_compose "p-3" "p-3" s) as (_ & _ & Hsame & _).
    apply Hsame. exact Hnot.
Defined.

Lemma overlapping_deletes_witness :
  let a := Dashboard.sampleProject "p-1" "first" in
  let b := Dashboard.sampleProject "p-2" "second" in
  let s := Dashboard.mkState [a; b] false None [] in
  In a [a; b] /\ Project.id a = "p-1" /\ "p-1" <> "p-2" /\
  In a (Dashboard.projects
          (DashboardAsync.resolveDelete [a; b] "p-2"
             (DashboardAsync.resolveDelete [a; b] "p-1" s))).
Proof.
  intros a b s.
  assert (Hin : In a [a; b]) by (left; reflexivity).
  assert (Hid : Project.id a = "p-1") by reflexivity.
  assert (Hne : "p-1" <> "p-2") by discriminate.
  split; [exact Hin |]. split; [exact Hid |]. split; [exact Hne |].
  destruct (overlapping_deletes_restore_the_first [a; b] "p-1" "p-2" s a Hin Hid Hne)
    as (Hback & _).
  exact Hback.
Defined.

Lemma token_witness :
  let st := [("theme", "dark")] in
  "theme" <> "auth_token" /\
  Browser.getItem "theme" (Browser.setItem "auth_token" "abc" st)
  = Browser.getItem "theme" st.
Proof.
  intros st.
  assert (H : "theme" <> "auth_token") by discriminate.
  split; [exact H |].
  destruct (token_round_trip st "abc" "old" "theme") as (_ & _ & _ & Hother & _).
  apply (Hother H).
Defined.

Lemma login_witness :
  let response := Auth.mkLoginResponse "abc" "bearer" in
  let failed : Browser.Outcome Auth.LoginResponse := Browser.ThrewError "Incorrect email or password" in
  let w := Auth.mkWorld (Some []) [] in
  Auth.access_token response <> "" /\
  (forall r, failed <> Browser.Resolved r) /\
  Auth.checkAuth (fst (Auth.onSubmit (Browser.Resolved response) w)) = true /\
  Auth.checkAuth (fst (Auth.handleLogout (fst (Auth.onSubmit (Browser.Resolved response) w))))
  = false /\
  snd (Auth.onSubmit failed w) = Some "Incorrect email or password".
Proof.
  intros response failed w.
  assert (Ht : Auth.access_token response <> "") by discriminate.
  assert (Hf : forall r, failed <> Browser.Resolved r) by discriminate.
  split; [exact Ht |]. split; [exact Hf |].
  destruct (login_then_logout [] [] response (Browser.Resolved []) failed Ht Hf)
    as (_ & H1 & _ & _ & H2 & _ & _ & H3).
  split; [exact H1 |]. split; [exact H2 | exact H3].
Defined.

Lemma request_headers_witness :
  let options :=
    Api.mkInit (Some "POST") Api.FormDataBody
               (Some [("Content-Type", "text/plain"); ("Authorization", "Basic xyz")]) in
  let sent := Api.requestHeaders
                (Api.apiRequest_fetch "http://localhost:8000/api/v1" (Some "abc")
                                      "/projects/" options) in
  NoDup (map fst (Api.callerHeaders options)) /\
  Api.objGet "Authorization" sent = Some "Bearer abc" /\
  Api.objGet "Content-Type" sent = None.
Proof.
  intros options sent.
  assert (Hnd : NoDup (map fst (Api.callerHeaders options))).
  { simpl. constructor; [intros [H | []]; discriminate H |].
    constructor; [intros [] | constructor]. }
  split; [exact Hnd |].
  destruct (request_headers "http://localhost:8000/api/v1" (Some "abc") "/projects/"
                            options Hnd) as (Hauth & _ & Hct & _).
  split; [apply (Hauth "abc" eq_refl); discriminate | exact Hct].
Defined.

Lemma failed_response_witness :
  let r := Api.mkResponse false "Not Found"
             (Some (Api.JObject [("detail", Api.JString "Project not found")])) in
  let invalid := Api.mkResponse false "Unprocessable Entity"
                   (Some (Api.JObject [("detail", Api.JArray [])])) in
  Api.ok r = false /\ Api.ok invalid = false /\ "Login failed" <> "" /\
  Api.login_result r = Api.Threw (Api.ErrorWith "Project not found") /\
  Api.jsTruthy (Api.JArray []) = true /\
  (forall s, Api.JArray [] <> Api.JString s) /\
  Api.login_result invalid = Api.Threw (Api.ErrorOfValue (Api.JArray [])).
Proof.
  intros r invalid.
  assert (Hok : Api.ok r = false) by reflexivity.
  assert (Hok' : Api.ok invalid = false) by reflexivity.
  assert (Hf : "Login failed" <> "") by discriminate.
  assert (Hns : forall s, Api.JArray [] <> Api.JString s) by discriminate.
  split; [exact Hok |]. split; [exact Hok' |]. split; [exact Hf |].
  destruct (failed_response_throws r "Login failed" Hok Hf) as (_ & _ & _ & H & _).
  destruct (failed_response_throws invalid "Login failed" Hok' Hf)
    as (_ & _ & _ & _ & H' & _).
  split; [| split; [reflexivity | split; [exact Hns |]]].
  - apply (H [("detail", Api.JString "Project not found")] "Project not found");
      [reflexivity | reflexivity | discriminate].
  - apply (H' [("detail", Api.JArray [])] (Api.JArray []));
      [reflexivity | reflexivity | reflexivity | exact Hns].
Defined.

Lemma queries_witness :
  let show := fun q : Q => JS.show (Qnum q) in
  let params := Some [(Api.iou_threshold, None); (Api.persistence_frames, Some 3)] in
  Api.queryParts show params <> [] /\
  Api.getProjectCollisions_endpoint show "p-1" params
  = "/analysis/project/p-1/collisions?persistence_frames=3".
Proof.
  intros show params.
  assert (H : Api.queryParts show params <> []) by discriminate.
  split; [exact H |].
  destruct (queries_send_what_is_defined show "p-1" params) as (_ & Hq & _).
  rewrite (Hq H). reflexivity.
Defined.

Lemma file_choice_witness :
  let trim := fun t : string => t in
  let video := Upload.mkFile "crash.mp4" "video/mp4" in
  let text := Upload.mkFile "notes.txt" "text/plain" in
  let s := Upload.mkState (Some video) "Crash" "" "" false None false in
  Upload.videoSelected s = true /\
  String.prefix "video/" (Upload.type text) = false /\
  Upload.videoSelected (Upload.handleFileChange (Some [text]) s) = true /\
  Upload.videoFile (Upload.handleFileChange (Some [text]) s) = Some video.
Proof.
  intros trim video text s.
  assert (Hs : Upload.videoSelected s = true) by reflexivity.
  assert (Ht : String.prefix "video/" (Upload.type text) = false) by reflexivity.
  split; [exact Hs |]. split; [exact Ht |].
  destruct (file_choice_keeps_a_video_selected trim (Some [text]) s) as (Hkeep & Hrej & _).
  split; [exact (Hkeep Hs) |].
  apply (Hrej text [] eq_refl Ht).
Defined.

Lemma upload_witness :
  let trim := fun t : string => t in
  let video := Upload.mkFile "crash.mp4" "video/mp4" in
  let s := Upload.mkState (Some video) "Crash" "" "" false None false in
  let created := Dashboard.sampleProject "p-9" "Crash" in
  let result := Upload.handleUpload trim true (Browser.Resolved created)
                                    (Browser.Resolved tt) s in
  Upload.uploadDisabled trim s = false /\
  Upload.isLoading (fst result) = false /\
  In (Upload.UploadVideo "p-9" video) (snd result) /\
  Upload.videoFile s = Some video.
Proof.
  intros trim video s created result.
  assert (Hen : Upload.uploadDisabled trim s = false) by reflexivity.
  assert (Hin : In (Upload.UploadVideo "p-9" video) (snd result))
    by (right; left; reflexivity).
  destruct (upload_decisions trim true (Browser.Resolved created) (Browser.Resolved tt) s)
    as (_ & _ & Hup & _ & _ & Hbtn).
  split; [exact Hen |]. split; [exact (proj1 (Hbtn eq_refl Hen)) |].
  split; [exact Hin |]. exact (proj1 (Hup "p-9" video Hin)).
Defined.
